(** * A text adventure with lazily generated rooms: model and properties

    Shallow embedding of [src/main.py] (classes [Item], [Room], [Player]
    and [Game]) and the properties of its world-generation and navigation
    core.

    Conventions of the embedding.
    - A Python [str] is a [string]; [lower], [upper] and [split] act on the
      ASCII range, bytes above 127 are left alone.
    - [Game.rooms] is a [gmap string Room]: the dictionary is only read and
      written by key.  [Room.exits] is an insertion-ordered association
      list, because [cmd_look] prints its keys in order.
    - Every [Room] object is reachable from one key of [Game.rooms] only and
      an [Item] is never mutated, so records by value are faithful to the
      [==]-based list operations of the source.
    - The chat-completion service is a parameter: the answer to the [n]-th
      call, already decoded.  [None] stands for any exception raised by the
      call or by [json.loads]; a missing key is a field at [None].
    - A computation is a function from the state to [option]: [None] is an
      exception that leaves [process_command] ([KeyError] on a missing
      room, [AttributeError] on a missing player).
    - What [print] writes is not part of the state: the text a command
      returns is, and [main], which prints it, is outside the core. *)

From Stdlib Require Import ZArith Ascii String List Bool Lia.
From stdpp Require Import base option list strings gmap fin_maps.

Local Open Scope string_scope.
Local Open Scope list_scope.
Local Open Scope Z_scope.

(** ** Strings *)

Module Str.

Definition nl : string := String (ascii_of_nat 10) EmptyString.

Definition is_upper (c : ascii) : bool :=
  let n := nat_of_ascii c in (65 <=? n)%nat && (n <=? 90)%nat.

Definition is_lower (c : ascii) : bool :=
  let n := nat_of_ascii c in (97 <=? n)%nat && (n <=? 122)%nat.

Definition lower_char (c : ascii) : ascii :=
  if is_upper c then ascii_of_nat (nat_of_ascii c + 32) else c.

Definition upper_char (c : ascii) : ascii :=
  if is_lower c then ascii_of_nat (nat_of_ascii c - 32) else c.

Fixpoint map_chars (f : ascii -> ascii) (s : string) : string :=
  match s with
  | EmptyString => EmptyString
  | String c s' => String (f c) (map_chars f s')
  end.

(** [str.lower()] and [str.upper()] *)
Definition lower : string -> string := map_chars lower_char.
Definition upper : string -> string := map_chars upper_char.

(** The characters [str.split()] treats as separators. *)
Definition isspace (c : ascii) : bool :=
  let n := nat_of_ascii c in
  ((9 <=? n)%nat && (n <=? 13)%nat)
  || ((28 <=? n)%nat && (n <=? 32)%nat).

Definition flush (cur : string) (ws : list string) : list string :=
  match cur with
  | EmptyString => ws
  | _ => cur :: ws
  end.

Fixpoint split_from (cur : string) (s : string) : list string :=
  match s with
  | EmptyString => flush cur []
  | String c s' =>
      if isspace c then flush cur (split_from EmptyString s')
      else split_from (cur +:+ String c EmptyString) s'
  end.

(** [str.split()] without argument: runs of white space separate the words
    and there is no empty word. *)
Definition split (s : string) : list string := split_from EmptyString s.

(** [sep.join(parts)] *)
Fixpoint join (sep : string) (parts : list string) : string :=
  match parts with
  | [] => EmptyString
  | [p] => p
  | p :: rest => p +:+ sep +:+ join sep rest
  end.

(** Truth value of a [str]: non-empty. *)
Definition truthy (s : string) : bool :=
  match s with
  | EmptyString => false
  | _ => true
  end.

End Str.

(** ** Insertion-ordered dictionaries with string keys *)

Module Dict.

Definition t (V : Type) : Type := list (string * V).

Fixpoint get {V} (k : string) (d : t V) : option V :=
  match d with
  | [] => None
  | (k', v) :: d' => if String.eqb k k' then Some v else get k d'
  end.

(** [d[k] = v]: an existing key keeps its position. *)
Fixpoint set {V} (k : string) (v : V) (d : t V) : t V :=
  match d with
  | [] => [(k, v)]
  | (k', v') :: d' =>
      if String.eqb k k' then (k', v) :: d' else (k', v') :: set k v d'
  end.

Definition keys {V} (d : t V) : list string := map fst d.

End Dict.

(** ** Data model *)

Module Item.
Record Item : Type := mk
  { name : string;
    description : string;
    can_take : bool }.

(** Equality of the dataclass: field by field. *)
Definition eqb (a b : Item) : bool :=
  String.eqb (name a) (name b)
  && String.eqb (description a) (description b)
  && Bool.eqb (can_take a) (can_take b).
End Item.
Abbreviation Item := Item.Item.

Module Room.
Record Room : Type := mk
  { name : string;
    description : string;
    items : list Item;
    exits : Dict.t string;
    visited : bool;
    hints : option (list string);
    atmosphere : string;
    story_context : string;
    is_goal : bool }.

Definition with_visited (b : bool) (r : Room) : Room :=
  mk (name r) (description r) (items r) (exits r) b (hints r)
     (atmosphere r) (story_context r) (is_goal r).

Definition with_items (l : list Item) (r : Room) : Room :=
  mk (name r) (description r) l (exits r) (visited r) (hints r)
     (atmosphere r) (story_context r) (is_goal r).
End Room.
Abbreviation Room := Room.Room.

Module Player.
Record Player : Type := mk
  { name : string;
    inventory : list Item;
    current_room : option string }.

(** [Player.__init__] *)
Definition init (nm : string) : Player := mk nm [] None.

Definition with_inventory (l : list Item) (p : Player) : Player :=
  mk (name p) l (current_room p).

Definition with_current_room (r : option string) (p : Player) : Player :=
  mk (name p) (inventory p) r.

(** [Player.take_item]: the new player and the returned flag. *)
Definition take_item (item : Item) (p : Player) : Player * bool :=
  if Item.can_take item
  then (with_inventory (inventory p ++ [item]) p, true)
  else (p, false).
End Player.
Abbreviation Player := Player.Player.

Record Game : Type := mkGame
  { rooms : gmap string Room;
    player : option Player;
    story_theme : string;
    goal_description : string;
    current_path_depth : Z;
    max_path_depth : Z }.

(** [Game.__init__] *)
Definition new_game : Game := mkGame ∅ None EmptyString EmptyString 0 10.

Definition with_rooms (m : gmap string Room) (g : Game) : Game :=
  mkGame m (player g) (story_theme g) (goal_description g)
         (current_path_depth g) (max_path_depth g).

Definition with_player (p : option Player) (g : Game) : Game :=
  mkGame (rooms g) p (story_theme g) (goal_description g)
         (current_path_depth g) (max_path_depth g).

Definition with_story_theme (s : string) (g : Game) : Game :=
  mkGame (rooms g) (player g) s (goal_description g)
         (current_path_depth g) (max_path_depth g).

Definition with_goal_description (s : string) (g : Game) : Game :=
  mkGame (rooms g) (player g) (story_theme g) s
         (current_path_depth g) (max_path_depth g).

Definition with_current_path_depth (d : Z) (g : Game) : Game :=
  mkGame (rooms g) (player g) (story_theme g) (goal_description g)
         d (max_path_depth g).

(** ** The narrative service *)

(** What [json.loads] returns for the theme request.  A key that is absent
    is [None]. *)
Record story_json : Type := mkStoryJson
  { sj_theme : option string;
    sj_goal : option string;
    sj_backstory : option string }.

(** One element of ["items"]: the three keyword arguments of [Item] and the
    keys that are no field of the dataclass. *)
Record item_json : Type := mkItemJson
  { ij_name : option string;
    ij_description : option string;
    ij_can_take : option bool;
    ij_other_keys : list string }.

Record room_json : Type := mkRoomJson
  { rj_name : option string;
    rj_description : option string;
    rj_atmosphere : option string;
    rj_items : option (list item_json);
    rj_hints : option (list string);
    rj_story_context : option string;
    rj_suggested_exits : option (Dict.t string);
    rj_is_goal : option bool }.

(** The data the prompt of [generate_room] is built from. *)
Record room_context : Type := mkRoomContext
  { rc_story_theme : string;
    rc_goal_description : string;
    rc_current_path_depth : Z;
    rc_max_path_depth : Z;
    rc_previous : string }.

(** The data the prompt of [get_contextual_hint] is built from. *)
Record hint_context : Type := mkHintContext
  { hc_room_name : string;
    hc_room_description : string;
    hc_items : list string;
    hc_inventory : list string;
    hc_exits : list string }.

(** The answers of [client.chat.completions.create], by the number of calls
    made before and by the request.  [None]: the call, or the decoding of
    its content, raised. *)
Record Service : Type := mkService
  { theme_reply : nat -> option story_json;
    room_reply : nat -> room_context -> option room_json;
    hint_reply : nat -> hint_context -> option string }.

(** ** Computations *)

(** The program state: the [Game] object and the number of calls made to
    the service so far. *)
Record State : Type := mkState
  { self : Game;
    calls : nat }.

Definition M (A : Type) : Type := State -> option (A * State).

Definition ret {A} (a : A) : M A := fun st => Some (a, st).

Definition bind {A B} (m : M A) (k : A -> M B) : M B :=
  fun st =>
    match m st with
    | Some (a, st') => k a st'
    | None => None
    end.

(** A Python expression that may raise. *)
Definition lift {A} (o : option A) : M A :=
  fun st =>
    match o with
    | Some a => Some (a, st)
    | None => None
    end.

Definition get_self : M Game := fun st => Some (self st, st).

Definition modify (f : Game -> Game) : M unit :=
  fun st => Some (tt, mkState (f (self st)) (calls st)).

(** One call to the service: the answer depends on the call number. *)
Definition call {A} (reply : nat -> A) : M A :=
  fun st => Some (reply (calls st), mkState (self st) (S (calls st))).

Declare Scope game_scope.
Delimit Scope game_scope with game.
Notation "'do' x <- m ; k" := (bind m (fun x => k))
  (at level 10, x name, m at level 100, k at level 200) : game_scope.
Notation "m ;; k" := (bind m (fun _ => k))
  (at level 100, k at level 200, right associativity) : game_scope.
Local Open Scope game_scope.

(** [self.rooms[self.player.current_room]]: raises when the player, its
    room id or the room is missing. *)
Definition current_room_id (g : Game) : option string :=
  match player g with
  | Some p => Player.current_room p
  | None => None
  end.

Definition lookup_current_room (g : Game) : option Room :=
  match current_room_id g with
  | Some rid => rooms g !! rid
  | None => None
  end.

Definition update_room (rid : string) (r : Room) (g : Game) : Game :=
  with_rooms (<[rid := r]> (rooms g)) g.

Section Game.

Variable svc : Service.

(** *** Theme *)

Definition default_theme : string := "A mysterious adventure".
Definition default_goal : string := "Discover the truth and find your way home".

(** The body of the [try] block of [generate_story_theme]: the state it
    leaves and whether it completed.  The two attributes are assigned
    before the back story is read. *)
Definition story_theme_try (reply : option story_json) (g : Game) : Game * bool :=
  match reply with
  | None => (g, false)
  | Some sd =>
      match sj_theme sd with
      | None => (g, false)
      | Some th =>
          let g1 := with_story_theme th g in
          match sj_goal sd with
          | None => (g1, false)
          | Some gl =>
              let g2 := with_goal_description gl g1 in
              match sj_backstory sd with
              | None => (g2, false)
              | Some _ => (g2, true)
              end
          end
      end
  end.

Definition generate_story_theme : M unit :=
  do reply <- call (theme_reply svc);
  modify (fun g =>
    let (g', ok) := story_theme_try reply g in
    if ok then g'
    else with_goal_description default_goal (with_story_theme default_theme g')).

(** *** Rooms *)

(** The constructor call on the keys of one element of the item list:
    [name] and [description] are required, [can_take] defaults to [True],
    any other key is a [TypeError]. *)
Definition item_of_json (ij : item_json) : option Item :=
  match ij_other_keys ij, ij_name ij, ij_description ij with
  | [], Some nm, Some desc =>
      Some (Item.mk nm desc (default true (ij_can_take ij)))
  | _, _, _ => None
  end.

Fixpoint items_of_json (l : list item_json) : option (list Item) :=
  match l with
  | [] => Some []
  | ij :: l' =>
      match item_of_json ij with
      | None => None
      | Some it =>
          match items_of_json l' with
          | None => None
          | Some its => Some (it :: its)
          end
      end
  end.

(** The id of the room behind an exit: [f"{room_id}_{direction}"]. *)
Definition exit_id (room_id direction : string) : string :=
  room_id +:+ "_" +:+ direction.

Definition exits_of_suggested (room_id : string) (suggested : Dict.t string)
  : Dict.t string :=
  fold_left (fun ex kv => Dict.set (fst kv) (exit_id room_id (fst kv)) ex)
            suggested [].

Definition create_fallback_room (room_id : string) : Room :=
  Room.mk "Mysterious Chamber"
          "A mysterious chamber with shifting walls."
          []
          [("forward", exit_id room_id "forward"); ("back", "start")]
          false
          (Some ["The path ahead seems to pulse with energy."])
          "The air crackles with unknown forces."
          "A mysterious point in your journey."
          false.

(** The body of the [try] block of [generate_room] after the call. *)
Definition room_of_json (room_id : string) (rd : room_json) : option Room :=
  match rj_items rd with
  | None => None
  | Some ijs =>
      match items_of_json ijs with
      | None => None
      | Some its =>
          match rj_suggested_exits rd with
          | None => None
          | Some suggested =>
              match rj_name rd, rj_description rd with
              | Some nm, Some desc =>
                  Some (Room.mk nm desc its
                          (exits_of_suggested room_id suggested)
                          false
                          (Some (default [] (rj_hints rd)))
                          (default EmptyString (rj_atmosphere rd))
                          (default EmptyString (rj_story_context rd))
                          (default false (rj_is_goal rd)))
              | _, _ => None
              end
          end
      end
  end.

Definition room_request (g : Game) (previous_room : option Room) : room_context :=
  mkRoomContext (story_theme g) (goal_description g)
                (current_path_depth g) (max_path_depth g)
                (match previous_room with
                 | Some r => Room.story_context r
                 | None => "Starting point"
                 end).

Definition generate_room (room_id : string) (previous_room : option Room) : M Room :=
  do g <- get_self;
  do reply <- call (fun n => room_reply svc n (room_request g previous_room));
  match reply with
  | Some rd =>
      match room_of_json room_id rd with
      | Some room => ret room
      | None => ret (create_fallback_room room_id)
      end
  | None => ret (create_fallback_room room_id)
  end.

Definition initialize_game : M unit :=
  generate_story_theme ;;
  do starting_room <- generate_room "start" None;
  modify (update_room "start" starting_room) ;;
  modify (with_player (Some (Player.init "Adventurer"))) ;;
  do g <- get_self;
  do p <- lift (player g);
  modify (with_player (Some (Player.with_current_room (Some "start") p))).

(** *** Rendering *)

Definition item_line (item : Item) : string :=
  "There is " +:+ Item.name item +:+ " here.".

Definition exits_desc (room : Room) : string :=
  match Room.exits room with
  | [] => "There are no obvious exits."
  | _ => "Exits: " +:+ Str.join ", " (Dict.keys (Room.exits room))
  end.

(** The parts [cmd_look] always renders. *)
Definition base_parts (room : Room) : list string :=
  [Str.nl +:+ Str.upper (Room.name room) +:+ Str.nl;
   Room.description room;
   Str.nl +:+ Room.atmosphere room;
   Str.nl]
  ++ match Room.items room with
     | [] => []
     | _ => [Str.join Str.nl (map item_line (Room.items room))]
     end
  ++ [Str.nl +:+ exits_desc room].

Definition hint_header : string :=
  Str.nl +:+ "As you take in your surroundings, you notice:".

Definition hint_line (hint : string) : string := "- " +:+ hint.

(** The parts appended under [if not room.visited]; a [None] or empty hint
    list is false. *)
Definition hint_parts (room : Room) : list string :=
  if Room.visited room then []
  else match Room.hints room with
       | Some (h :: hs) => hint_header :: map hint_line (h :: hs)
       | _ => []
       end.

Definition description_parts (room : Room) : list string :=
  base_parts room ++ hint_parts room.

Definition cmd_look : M string :=
  do g <- get_self;
  do rid <- lift (current_room_id g);
  do room <- lift (rooms g !! rid);
  (if Room.visited room then ret tt
   else modify (update_room rid (Room.with_visited true room))) ;;
  ret (Str.join Str.nl (description_parts room)).

Definition goal_message (room : Room) (g : Game) : string :=
  Str.nl +:+ Room.description room +:+ Str.nl +:+ Str.nl
  +:+ "Congratulations! " +:+ goal_description g +:+ Str.nl +:+ Str.nl
  +:+ "You have completed your quest! Would you like to:" +:+ Str.nl
  +:+ "1. Continue exploring" +:+ Str.nl
  +:+ "2. Start a new adventure (type 'quit' and restart)" +:+ Str.nl.

Definition handle_goal_room : M string :=
  do g <- get_self;
  do room <- lift (lookup_current_room g);
  ret (goal_message room g).

(** *** Navigation *)

Definition cannot_go : string := "You can't go that way.".

Definition handle_room_transition (direction : string) : M string :=
  do g <- get_self;
  do current_room <- lift (lookup_current_room g);
  match Dict.get direction (Room.exits current_room) with
  | None => ret cannot_go
  | Some next_room_id =>
      (match rooms g !! next_room_id with
       | Some _ => ret tt
       | None =>
           modify (fun g => with_current_path_depth (current_path_depth g + 1) g) ;;
           do new_room <- generate_room next_room_id (Some current_room);
           modify (update_room next_room_id new_room)
       end) ;;
      do g1 <- get_self;
      do p <- lift (player g1);
      modify (with_player (Some (Player.with_current_room (Some next_room_id) p))) ;;
      do g2 <- get_self;
      do next_room <- lift (rooms g2 !! next_room_id);
      if Room.is_goal next_room then handle_goal_room else cmd_look
  end.

Definition cmd_move (direction : string) : M string :=
  handle_room_transition direction.

(** *** Simple commands *)

Definition cmd_inventory : M string :=
  do g <- get_self;
  do p <- lift (player g);
  match Player.inventory p with
  | [] => ret "You are empty-handed."
  | inv =>
      ret ("You are carrying:" +:+ Str.nl
           +:+ Str.join Str.nl (map (fun item => "- " +:+ Item.name item) inv))
  end.

(** [list.remove(x)]: drops the first element equal to [x], [ValueError]
    when there is none. *)
Fixpoint list_remove (x : Item) (l : list Item) : option (list Item) :=
  match l with
  | [] => None
  | y :: l' =>
      if Item.eqb y x then Some l'
      else match list_remove x l' with
           | Some r => Some (y :: r)
           | None => None
           end
  end.

Definition name_is (item_name : string) (item : Item) : bool :=
  String.eqb (Str.lower (Item.name item)) item_name.

(** The loop of [cmd_take] returns at the first item whose lower-cased name
    is [item_name]: [find]. *)
Definition cmd_take (item_name : string) : M string :=
  do g <- get_self;
  do rid <- lift (current_room_id g);
  do room <- lift (rooms g !! rid);
  match find (name_is item_name) (Room.items room) with
  | Some item =>
      do p <- lift (player g);
      let (p', taken) := Player.take_item item p in
      modify (with_player (Some p')) ;;
      if taken then
        do rest <- lift (list_remove item (Room.items room));
        modify (update_room rid (Room.with_items rest room)) ;;
        ret ("Taken: " +:+ Item.name item)
      else ret ("You can't take the " +:+ Item.name item +:+ ".")
  | None => ret ("I don't see a " +:+ item_name +:+ " here.")
  end.

Definition cmd_help : M string :=
  ret ("Available commands:" +:+ Str.nl
       +:+ "        - look: Examine your surroundings in detail" +:+ Str.nl
       +:+ "        - inventory (or i): Check your inventory" +:+ Str.nl
       +:+ "        - take [item]: Pick up an item" +:+ Str.nl
       +:+ "        - examine [item/direction]: Look at something more closely" +:+ Str.nl
       +:+ "        - n/s/e/w: Move in a direction" +:+ Str.nl
       +:+ "        - hint: Get a contextual hint about what to try next" +:+ Str.nl
       +:+ "        - help: Show this help message" +:+ Str.nl
       +:+ "        - quit: Exit the game").

Definition default_hint : string :=
  "You might want to examine your surroundings more carefully...".

Definition hint_request (room : Room) (p : Player) : hint_context :=
  mkHintContext (Room.name room) (Room.description room)
                (map Item.name (Room.items room))
                (map Item.name (Player.inventory p))
                (Dict.keys (Room.exits room)).

Definition get_contextual_hint : M string :=
  do g <- get_self;
  do room <- lift (lookup_current_room g);
  do p <- lift (player g);
  do reply <- call (fun n => hint_reply svc n (hint_request room p));
  match reply with
  | Some content => ret content
  | None => ret default_hint
  end.

Definition cmd_examine (target : string) : M string :=
  do g <- get_self;
  do room <- lift (lookup_current_room g);
  do p <- lift (player g);
  match find (name_is (Str.lower target)) (Player.inventory p) with
  | Some item => ret (Item.description item)
  | None =>
      match find (name_is (Str.lower target)) (Room.items room) with
      | Some item => ret (Item.description item)
      | None =>
          ret ("You don't see anything special about the " +:+ target +:+ ".")
      end
  end.

(** *** The command interpreter *)

Definition move_verbs : list string :=
  ["n"; "s"; "e"; "w"; "north"; "south"; "east"; "west"].

Definition is_move_verb (verb : string) : bool :=
  existsb (String.eqb verb) move_verbs.

Definition process_command (command : string) : M string :=
  match Str.split (Str.lower command) with
  | [] => ret "Please enter a command."
  | verb :: rest =>
      let noun := match rest with
                  | w :: _ => w
                  | [] => EmptyString
                  end in
      if String.eqb verb "look" then cmd_look
      else if String.eqb verb "inventory" || String.eqb verb "i" then cmd_inventory
      else if is_move_verb verb then cmd_move verb
      else if String.eqb verb "take" && Str.truthy noun then cmd_take noun
      else if String.eqb verb "help" then cmd_help
      else if String.eqb verb "hint" then get_contextual_hint
      else if String.eqb verb "examine" && Str.truthy noun then cmd_examine noun
      else ret "I don't understand that command."
  end.

(** A session: the commands typed after [initialize_game], in order, with
    the text printed for each. *)
Fixpoint run (commands : list string) : M (list string) :=
  match commands with
  | [] => ret []
  | c :: cs =>
      do out <- process_command c;
      do outs <- run cs;
      ret (out :: outs)
  end.

End Game.

(** * Vocabulary of the properties *)

(** The player exists and stands in a realized room. *)
Definition wf (g : Game) : Prop :=
  exists p rid room,
    player g = Some p /\ Player.current_room p = Some rid
    /\ rooms g !! rid = Some room.

(** What a command may do to a realized room: mark it visited, and remove
    items; every other field stays. *)
Record room_evolves (r r' : Room) : Prop := mkRoomEvolves
  { re_name : Room.name r' = Room.name r;
    re_description : Room.description r' = Room.description r;
    re_exits : Room.exits r' = Room.exits r;
    re_hints : Room.hints r' = Room.hints r;
    re_atmosphere : Room.atmosphere r' = Room.atmosphere r;
    re_story_context : Room.story_context r' = Room.story_context r;
    re_is_goal : Room.is_goal r' = Room.is_goal r;
    re_visited : Room.visited r = true -> Room.visited r' = true;
    re_items : forall x, In x (Room.items r') -> In x (Room.items r) }.

(** What a command may do to the game: realized rooms stay realized and
    evolve, the theme and the goal stay, and the depth grows by the number
    of rooms realized. *)
Record game_evolves (g g' : Game) : Prop := mkGameEvolves
  { ge_rooms : forall rid r, rooms g !! rid = Some r ->
               exists r', rooms g' !! rid = Some r' /\ room_evolves r r';
    ge_story_theme : story_theme g' = story_theme g;
    ge_goal_description : goal_description g' = goal_description g;
    ge_max_path_depth : max_path_depth g' = max_path_depth g;
    ge_depth : current_path_depth g <= current_path_depth g';
    ge_count : current_path_depth g' - current_path_depth g
               = Z.of_nat (size (rooms g')) - Z.of_nat (size (rooms g)) }.

(** The game after [cmd_look] rendered [room], stored under [rid]. *)
Definition looked (rid : string) (room : Room) (g : Game) : Game :=
  if Room.visited room then g
  else update_room rid (Room.with_visited true room) g.

(** The room [generate_room] returns at call number [n]. *)
Definition generated (svc : Service) (n : nat) (g : Game)
  (previous_room : option Room) (room_id : string) : Room :=
  match room_reply svc n (room_request g previous_room) with
  | Some rd => default (create_fallback_room room_id) (room_of_json room_id rd)
  | None => create_fallback_room room_id
  end.

Definition move_player (rid : string) (p : Player) (g : Game) : Game :=
  with_player (Some (Player.with_current_room (Some rid) p)) g.

(** The end of [handle_room_transition], once the player stands in [room]:
    the text returned and the game left. *)
Definition arrive (rid : string) (room : Room) (g : Game) : string * Game :=
  if Room.is_goal room then (goal_message room g, g)
  else (Str.join Str.nl (description_parts room), looked rid room g).

Definition taken_game (rid : string) (room : Room) (p : Player) (item : Item)
  (rest : list Item) (g : Game) : Game :=
  update_room rid (Room.with_items rest room)
    (with_player (Some (Player.with_inventory (Player.inventory p ++ [item]) p)) g).

(** The command returned: it left a well-formed game into which the one it
    started from evolves, and the number of calls did not decrease. *)
Definition step_ok (g : Game) (n : nat) (res : option (string * State)) : Prop :=
  exists out g' n',
    res = Some (out, mkState g' n') /\ wf g' /\ game_evolves g g' /\ (n <= n')%nat.

(** The game after [generate_story_theme] at call number [n]. *)
Definition themed (svc : Service) (n : nat) (g : Game) : Game :=
  let (g', ok) := story_theme_try (theme_reply svc n) g in
  if ok then g'
  else with_goal_description default_goal (with_story_theme default_theme g').

(** The game after [initialize_game], started at call number [n]. *)
Definition initialized (svc : Service) (n : nat) (g : Game) : Game :=
  let g1 := themed svc n g in
  with_player
    (Some (Player.with_current_room (Some "start") (Player.init "Adventurer")))
    (update_room "start" (generated svc (S n) g1 None "start") g1).

(** The states of a session: [initialize_game] on a fresh [Game], then
    commands through the interpreter or moves through the navigation
    controller. *)
Inductive reachable (svc : Service) : State -> Prop :=
  | reach_init n :
      reachable svc (mkState (initialized svc n new_game) (S (S n)))
  | reach_command st command out st' :
      reachable svc st ->
      process_command svc command st = Some (out, st') ->
      reachable svc st'
  | reach_move st direction out st' :
      reachable svc st ->
      cmd_move svc direction st = Some (out, st') ->
      reachable svc st'.

Module Sample.

(** A hall with a key that can be taken and a statue that cannot. *)
Definition hall_json : room_json :=
  mkRoomJson (Some "Hall") (Some "A big hall.") (Some "Cold.")
    (Some [mkItemJson (Some "Key") (Some "A rusty key.") None [];
           mkItemJson (Some "Statue") (Some "A heavy statue.") (Some false) []])
    (Some ["Try the door."]) (Some "The hall.")
    (Some [("n", "a door"); ("east", "a window")])
    None.

(** A goal room with one exit. *)
Definition vault_json : room_json :=
  mkRoomJson (Some "Vault") (Some "The vault.") None
    (Some []) None None
    (Some [("s", "a tunnel")])
    (Some true).

(** The theme request fails, the first room request answers the hall, the
    second the vault, every later call fails. *)
Definition svc : Service :=
  mkService (fun _ => None)
            (fun n _ => match n with
                        | 1%nat => Some hall_json
                        | 2%nat => Some vault_json
                        | _ => None
                        end)
            (fun _ _ => None).

(** After [initialize_game]: the player is in the hall. *)
Definition st_hall : State := mkState (initialized svc 0 new_game) 2.

Definition after (commands : list string) (st : State) : State :=
  match run svc commands st with
  | Some (_, st') => st'
  | None => st
  end.

(** After [n]: the player is in the vault, the goal room. *)
Definition st_vault : State := after ["n"] st_hall.

End Sample.

(** The room an exit of the current room leads to. *)
Definition destination (g : Game) (direction : string) : option string :=
  match lookup_current_room g with
  | Some cur => Dict.get direction (Room.exits cur)
  | None => None
  end.

(** The room has been entered by a move: it is a goal room, or it has been
    rendered. *)
Definition entered (r : Room) : bool := Room.is_goal r || Room.visited r.

(** The room as a move into it leaves it. *)
Definition marked (r : Room) : Room :=
  if Room.is_goal r then r else Room.with_visited true r.

(** The request for a room fails: the call raises, or its answer lacks what
    the construction of the room requires. *)
Definition generation_fails (svc : Service) (n : nat) (g : Game)
  (previous_room : option Room) (room_id : string) : Prop :=
  match room_reply svc n (room_request g previous_room) with
  | Some rd => room_of_json room_id rd = None
  | None => True
  end.

(** The theme request fails: the call raises, or one of the three keys the
    [try] block reads is missing. *)
Definition theme_fails (reply : option story_json) : Prop :=
  match reply with
  | None => True
  | Some sd => sj_theme sd = None \/ sj_goal sd = None \/ sj_backstory sd = None
  end.

(** The line holds white space only. *)
Fixpoint all_space (s : string) : bool :=
  match s with
  | EmptyString => true
  | String c s' => Str.isspace c && all_space s'
  end.


(** The first words [process_command] reacts to. *)
Definition known_verbs : list string :=
  ["look"; "inventory"; "i"] ++ move_verbs ++ ["take"; "help"; "hint"; "examine"].

(** The inventory of the player, empty without a player. *)
Definition inventory_of (g : Game) : list Item :=
  match player g with
  | Some p => Player.inventory p
  | None => []
  end.

(** What [cmd_examine] returns for a player and the room around. *)
Definition examined (target : string) (p : Player) (room : Room) : string :=
  match find (name_is (Str.lower target)) (Player.inventory p) with
  | Some item => Item.description item
  | None =>
      match find (name_is (Str.lower target)) (Room.items room) with
      | Some item => Item.description item
      | None => "You don't see anything special about the " +:+ target +:+ "."
      end
  end.

(** What [cmd_inventory] returns for an inventory. *)
Definition inventory_text (inv : list Item) : string :=
  match inv with
  | [] => "You are empty-handed."
  | _ => "You are carrying:" +:+ Str.nl
         +:+ Str.join Str.nl (map (fun item => "- " +:+ Item.name item) inv)
  end.

(** What a command does to the player and to the number of calls: the
    name stays, the inventory is extended at its end, the player stays in
    its room unless the first word is a movement verb that is an exit of
    the room, and a call is made only for a hint or for a move into a room
    that is not realized. *)
Definition effect (command : string) (g : Game) (n : nat) (g' : Game) (n' : nat)
  : Prop :=
  exists p p',
    player g = Some p /\ player g' = Some p'
    /\ Player.name p' = Player.name p
    /\ (exists extra, Player.inventory p' = Player.inventory p ++ extra)
    /\ (Player.current_room p' = Player.current_room p
        \/ exists verb rest next,
             Str.split (Str.lower command) = verb :: rest
             /\ is_move_verb verb = true
             /\ destination g verb = Some next
             /\ Player.current_room p' = Some next)
    /\ (n' = n
        \/ n' = S n
           /\ exists verb rest,
                Str.split (Str.lower command) = verb :: rest
                /\ (verb = "hint"
                    \/ is_move_verb verb = true
                       /\ exists next, destination g verb = Some next
                                       /\ rooms g !! next = None)).


(** Every character is in the ASCII range, where [Str.lower], [Str.upper]
    and [Str.split] are the methods of [str]. *)
Fixpoint is_ascii (s : string) : bool :=
  match s with
  | EmptyString => true
  | String c s' => (nat_of_ascii c <? 128)%nat && is_ascii s'
  end.

(** The parts, each on a line of its own after what comes before. *)
Fixpoint lines (parts : list string) : string :=
  match parts with
  | [] => EmptyString
  | part :: rest => Str.nl +:+ part +:+ lines rest
  end.

(** The text of a room rendered without hints, written out: the name in
    upper case between line breaks, the description, the atmosphere, one
    line for each item, the exits. *)
Definition room_text (room : Room) : string :=
  (Str.nl +:+ Str.upper (Room.name room) +:+ Str.nl)
  +:+ lines ([Room.description room; Str.nl +:+ Room.atmosphere room; Str.nl]
             ++ match Room.items room with
                | [] => []
                | item :: rest => [item_line item +:+ lines (map item_line rest)]
                end
             ++ [Str.nl +:+ exits_desc room]).

(** The lines the first rendering adds for the hints [hs], none when there
    is no hint. *)
Definition hints_text (hs : option (list string)) : string :=
  match hs with
  | Some (h :: rest) => lines (hint_header :: map hint_line (h :: rest))
  | _ => EmptyString
  end.

Module TwoKeys.

(** A room with two things called key: the first cannot be taken, the
    second can. *)
Definition room_reply_json : room_json :=
  mkRoomJson (Some "Cellar") (Some "A cellar.") None
    (Some [mkItemJson (Some "Key") (Some "A key set in stone.") (Some false) [];
           mkItemJson (Some "key") (Some "A loose key.") (Some true) []])
    None None (Some [("n", "stairs")]) None.

Definition svc : Service :=
  mkService (fun _ => None) (fun _ _ => Some room_reply_json) (fun _ _ => None).

(** After [initialize_game]: the player is in the cellar. *)
Definition st_cellar : State := mkState (initialized svc 0 new_game) 2.

End TwoKeys.

(** * Properties *)

(** ** Well-formed states and how rooms evolve *)

Lemma room_evolves_refl r : room_evolves r r.
Proof. split; auto. Qed.

Lemma room_evolves_trans r1 r2 r3 :
  room_evolves r1 r2 -> room_evolves r2 r3 -> room_evolves r1 r3.
Proof.
  intros [] []. split; try congruence; auto.
Qed.

Lemma room_evolves_visited b r :
  (Room.visited r = true -> b = true) ->
  room_evolves r (Room.with_visited b r).
Proof. intros Hb. split; simpl; auto. Qed.

Lemma game_evolves_refl g : game_evolves g g.
Proof.
  split; try reflexivity; try lia.
  intros rid r Hr. exists r. split; [assumption | apply room_evolves_refl].
Qed.

Lemma game_evolves_trans g1 g2 g3 :
  game_evolves g1 g2 -> game_evolves g2 g3 -> game_evolves g1 g3.
Proof.
  intros [H1 ? ? ? ? ?] [H2 ? ? ? ? ?]. split; try congruence; try lia.
  intros rid r Hr.
  destruct (H1 _ _ Hr) as (r2 & Hr2 & E12).
  destruct (H2 _ _ Hr2) as (r3 & Hr3 & E23).
  exists r3. split; [assumption | eapply room_evolves_trans; eassumption].
Qed.

(** Replacing a realized room by one it evolves to. *)
Lemma game_evolves_update g rid r r' :
  rooms g !! rid = Some r -> room_evolves r r' ->
  game_evolves g (update_room rid r' g).
Proof.
  intros Hr Hev. split; try reflexivity; simpl; try lia.
  - intros rid0 r0 Hr0. destruct (decide (rid = rid0)) as [->|Hne].
    + exists r'. rewrite lookup_insert_eq. split; [reflexivity | congruence].
    + exists r0. rewrite lookup_insert_ne by assumption.
      split; [assumption | apply room_evolves_refl].
  - rewrite map_size_insert_Some by (rewrite Hr; eauto). lia.
Qed.

(** Counting one more expansion and storing a room under an id that was
    not realized. *)
Lemma game_evolves_realize g rid r :
  rooms g !! rid = None ->
  game_evolves g
    (update_room rid r (with_current_path_depth (current_path_depth g + 1) g)).
Proof.
  intros Hr. split; try reflexivity; simpl; try lia.
  - intros rid0 r0 Hr0. exists r0. split; [|apply room_evolves_refl].
    rewrite lookup_insert_ne; [assumption | congruence].
  - rewrite map_size_insert_None by exact Hr. lia.
Qed.

Lemma game_evolves_player g p : game_evolves g (with_player p g).
Proof.
  split; try reflexivity; simpl; try lia.
  intros rid r Hr. exists r. split; [assumption | apply room_evolves_refl].
Qed.

(** ** Equations of the commands on well-formed states *)

Ltac run_monad :=
  unfold bind, ret, lift, get_self, modify, call; simpl.

Lemma cmd_look_eq g n p rid room :
  player g = Some p -> Player.current_room p = Some rid ->
  rooms g !! rid = Some room ->
  cmd_look (mkState g n)
  = Some (Str.join Str.nl (description_parts room), mkState (looked rid room g) n).
Proof.
  intros Hp Hc Hr. unfold cmd_look, current_room_id, looked. run_monad.
  rewrite Hp, Hc, Hr. destruct (Room.visited room); reflexivity.
Qed.

Lemma generate_room_eq svc room_id previous_room g n :
  generate_room svc room_id previous_room (mkState g n)
  = Some (generated svc n g previous_room room_id, mkState g (S n)).
Proof.
  unfold generate_room, generated. run_monad.
  destruct (room_reply svc n _) as [rd|]; [|reflexivity].
  destruct (room_of_json room_id rd); reflexivity.
Qed.

Lemma handle_room_transition_refused svc g n cur direction :
  lookup_current_room g = Some cur ->
  Dict.get direction (Room.exits cur) = None ->
  handle_room_transition svc direction (mkState g n)
  = Some (cannot_go, mkState g n).
Proof.
  intros Hcur Hd. unfold handle_room_transition. run_monad.
  rewrite Hcur, Hd. reflexivity.
Qed.

Lemma handle_room_transition_existing svc g n p rid cur direction next r :
  player g = Some p -> Player.current_room p = Some rid ->
  rooms g !! rid = Some cur ->
  Dict.get direction (Room.exits cur) = Some next ->
  rooms g !! next = Some r ->
  let g' := move_player next p g in
  handle_room_transition svc direction (mkState g n)
  = Some (fst (arrive next r g'), mkState (snd (arrive next r g')) n).
Proof.
  intros Hp Hc Hcur Hd Hr g'.
  unfold handle_room_transition, lookup_current_room, current_room_id.
  run_monad. rewrite Hp, Hc, Hcur, Hd, Hr. simpl. rewrite Hp. simpl.
  rewrite Hr. unfold arrive. destruct (Room.is_goal r).
  - unfold handle_goal_room, lookup_current_room, current_room_id.
    run_monad. rewrite Hr. reflexivity.
  - subst g'. unfold move_player.
    erewrite cmd_look_eq; simpl; eauto.
Qed.

Lemma handle_room_transition_new svc g n p rid cur direction next :
  player g = Some p -> Player.current_room p = Some rid ->
  rooms g !! rid = Some cur ->
  Dict.get direction (Room.exits cur) = Some next ->
  rooms g !! next = None ->
  let g1 := with_current_path_depth (current_path_depth g + 1) g in
  let r := generated svc n g1 (Some cur) next in
  let g' := move_player next p (update_room next r g1) in
  handle_room_transition svc direction (mkState g n)
  = Some (fst (arrive next r g'), mkState (snd (arrive next r g')) (S n)).
Proof.
  intros Hp Hc Hcur Hd Hr g1 r g'.
  unfold handle_room_transition, lookup_current_room, current_room_id.
  run_monad. rewrite Hp, Hc, Hcur, Hd, Hr. simpl.
  fold g1. pose proof (generate_room_eq svc next (Some cur) g1 n) as Hgen.
  unfold bind in Hgen |- *. rewrite Hgen. simpl. rewrite Hp. simpl.
  fold r. rewrite lookup_insert_eq. unfold arrive.
  destruct (Room.is_goal r).
  - unfold handle_goal_room, lookup_current_room, current_room_id.
    run_monad. rewrite lookup_insert_eq. reflexivity.
  - subst g'. unfold move_player.
    erewrite cmd_look_eq; simpl; eauto. apply lookup_insert_eq.
Qed.

Lemma with_player_same g p : player g = Some p -> with_player (Some p) g = g.
Proof. destruct g; simpl; intros ->; reflexivity. Qed.

Lemma wf_evolves g g' :
  game_evolves g g' -> player g' = player g -> wf g -> wf g'.
Proof.
  intros Hev Hpl (p & rid & room & Hp & Hc & Hr).
  destruct (ge_rooms _ _ Hev _ _ Hr) as (r' & Hr' & _).
  exists p, rid, r'. rewrite Hpl. auto.
Qed.

Lemma looked_evolves rid room g :
  rooms g !! rid = Some room -> game_evolves g (looked rid room g).
Proof.
  intros Hr. unfold looked. destruct (Room.visited room) eqn:Hv.
  - apply game_evolves_refl.
  - eapply game_evolves_update; [eassumption|].
    apply room_evolves_visited; reflexivity.
Qed.

Lemma looked_player rid room g : player (looked rid room g) = player g.
Proof. unfold looked. destruct (Room.visited room); reflexivity. Qed.

Lemma arrive_evolves rid room g :
  rooms g !! rid = Some room -> game_evolves g (snd (arrive rid room g)).
Proof.
  intros Hr. unfold arrive. destruct (Room.is_goal room); simpl.
  - apply game_evolves_refl.
  - apply looked_evolves; assumption.
Qed.

Lemma arrive_player rid room g : player (snd (arrive rid room g)) = player g.
Proof.
  unfold arrive. destruct (Room.is_goal room); simpl;
    [reflexivity | apply looked_player].
Qed.

(** The room stored under [rid] after the arrival. *)
Lemma arrive_lookup rid room g :
  rooms g !! rid = Some room ->
  rooms (snd (arrive rid room g)) !! rid
  = Some (if Room.is_goal room then room
          else Room.with_visited (Room.visited room || true) room).
Proof.
  intros Hr. unfold arrive, looked.
  destruct (Room.is_goal room); simpl; [assumption|].
  destruct (Room.visited room) eqn:Hv; simpl.
  - rewrite Hr. destruct room; simpl in *; subst; reflexivity.
  - apply lookup_insert_eq.
Qed.

(** *** Taking *)

Lemma item_eqb_eq (a b : Item) : Item.eqb a b = true <-> a = b.
Proof.
  unfold Item.eqb. rewrite !andb_true_iff, !String.eqb_eq, Bool.eqb_true_iff.
  destruct a, b; simpl. split.
  - intros [[-> ->] ->]; reflexivity.
  - intros [= -> -> ->]; auto.
Qed.

Lemma find_first {A} (f : A -> bool) (l : list A) (x : A) :
  find f l = Some x ->
  exists pre post,
    l = pre ++ x :: post /\ f x = true /\ Forall (fun y => f y = false) pre.
Proof.
  induction l as [|y l IH]; simpl; [discriminate|].
  destruct (f y) eqn:Hy.
  - intros [= ->]. exists [], l. auto.
  - intros Hx. destruct (IH Hx) as (pre & post & -> & Hfx & Hpre).
    exists (y :: pre), post. auto.
Qed.

Lemma list_remove_first (x : Item) (pre post : list Item) :
  Forall (fun y => Item.eqb y x = false) pre ->
  list_remove x (pre ++ x :: post) = Some (pre ++ post).
Proof.
  induction 1 as [|y pre Hy _ IH]; simpl.
  - replace (Item.eqb x x) with true; [reflexivity|].
    symmetry. apply item_eqb_eq. reflexivity.
  - rewrite Hy, IH. reflexivity.
Qed.

(** The item [cmd_take] finds is the one [list.remove] drops. *)
Lemma list_remove_found item_name (l : list Item) (item : Item) :
  find (name_is item_name) l = Some item ->
  exists pre post,
    l = pre ++ item :: post
    /\ name_is item_name item = true
    /\ Forall (fun y => name_is item_name y = false) pre
    /\ list_remove item l = Some (pre ++ post).
Proof.
  intros Hf. destruct (find_first _ _ _ Hf) as (pre & post & -> & Hx & Hpre).
  exists pre, post. repeat split; auto.
  apply list_remove_first. eapply Forall_impl; [eassumption|].
  intros y Hy. simpl in Hy. destruct (Item.eqb y item) eqn:E; [|reflexivity].
  apply item_eqb_eq in E. subst y. congruence.
Qed.

Lemma cmd_take_taken g n p rid room item_name item pre post :
  player g = Some p -> Player.current_room p = Some rid ->
  rooms g !! rid = Some room ->
  find (name_is item_name) (Room.items room) = Some item ->
  Item.can_take item = true ->
  list_remove item (Room.items room) = Some (pre ++ post) ->
  cmd_take item_name (mkState g n)
  = Some ("Taken: " +:+ Item.name item,
          mkState (taken_game rid room p item (pre ++ post) g) n).
Proof.
  intros Hp Hc Hr Hf Ht Hrm. unfold cmd_take, current_room_id. run_monad.
  rewrite Hp, Hc, Hr, Hf. simpl. unfold Player.take_item.
  rewrite Ht. simpl. rewrite Hrm. reflexivity.
Qed.

Lemma cmd_take_refused g n p rid room item_name item :
  player g = Some p -> Player.current_room p = Some rid ->
  rooms g !! rid = Some room ->
  find (name_is item_name) (Room.items room) = Some item ->
  Item.can_take item = false ->
  cmd_take item_name (mkState g n)
  = Some ("You can't take the " +:+ Item.name item +:+ ".", mkState g n).
Proof.
  intros Hp Hc Hr Hf Ht. unfold cmd_take, current_room_id. run_monad.
  rewrite Hp, Hc, Hr, Hf. simpl. unfold Player.take_item.
  rewrite Ht. simpl. rewrite with_player_same by assumption. reflexivity.
Qed.

Lemma cmd_take_absent g n p rid room item_name :
  player g = Some p -> Player.current_room p = Some rid ->
  rooms g !! rid = Some room ->
  find (name_is item_name) (Room.items room) = None ->
  cmd_take item_name (mkState g n)
  = Some ("I don't see a " +:+ item_name +:+ " here.", mkState g n).
Proof.
  intros Hp Hc Hr Hf. unfold cmd_take, current_room_id. run_monad.
  rewrite Hp, Hc, Hr, Hf. reflexivity.
Qed.

(** ** Every command returns, on a well-formed state *)

Lemma step_ok_same g n out : wf g -> step_ok g n (Some (out, mkState g n)).
Proof.
  intros Hwf. exists out, g, n. split; [reflexivity|].
  split; [assumption|]. split; [apply game_evolves_refl | lia].
Qed.

Lemma cmd_look_step g n : wf g -> step_ok g n (cmd_look (mkState g n)).
Proof.
  intros Hwf. pose proof Hwf as (p & rid & room & Hp & Hc & Hr).
  rewrite (cmd_look_eq _ _ _ _ _ Hp Hc Hr).
  eexists _, _, _. split; [reflexivity|].
  pose proof (looked_evolves _ _ _ Hr) as Hev.
  split; [|split; [exact Hev | lia]].
  eapply wf_evolves; [exact Hev | apply looked_player | exact Hwf].
Qed.

Lemma wf_arrive next r p g :
  rooms g !! next = Some r ->
  wf (snd (arrive next r (move_player next p g))).
Proof.
  intros Hr.
  assert (Hr' : rooms (move_player next p g) !! next = Some r) by exact Hr.
  exists (Player.with_current_room (Some next) p), next.
  eexists. rewrite arrive_player. split; [reflexivity|].
  split; [reflexivity|]. apply arrive_lookup. exact Hr'.
Qed.

Lemma handle_room_transition_step svc g n direction :
  wf g -> step_ok g n (handle_room_transition svc direction (mkState g n)).
Proof.
  intros Hwf. pose proof Hwf as (p & rid & cur & Hp & Hc & Hcur).
  destruct (Dict.get direction (Room.exits cur)) as [next|] eqn:Hd.
  - destruct (rooms g !! next) as [r|] eqn:Hr.
    + rewrite (handle_room_transition_existing svc _ n _ _ _ _ _ _ Hp Hc Hcur Hd Hr).
      eexists _, _, _. split; [reflexivity|].
      split; [apply wf_arrive; exact Hr|]. split; [|lia].
      eapply game_evolves_trans; [apply (game_evolves_player g)|].
      apply arrive_evolves. exact Hr.
    + rewrite (handle_room_transition_new svc _ n _ _ _ _ _ Hp Hc Hcur Hd Hr).
      eexists _, _, _. split; [reflexivity|].
      split; [apply wf_arrive; apply lookup_insert_eq|]. split; [|lia].
      eapply game_evolves_trans; [apply game_evolves_realize; exact Hr|].
      eapply game_evolves_trans; [apply game_evolves_player|].
      apply arrive_evolves. apply lookup_insert_eq.
  - rewrite (handle_room_transition_refused svc g n cur direction);
      [apply step_ok_same; exact Hwf | | exact Hd].
    unfold lookup_current_room, current_room_id. rewrite Hp, Hc. exact Hcur.
Qed.

Lemma cmd_inventory_step g n : wf g -> step_ok g n (cmd_inventory (mkState g n)).
Proof.
  intros Hwf. pose proof Hwf as (p & rid & room & Hp & Hc & Hr).
  unfold cmd_inventory. run_monad. rewrite Hp.
  destruct (Player.inventory p); apply step_ok_same; exact Hwf.
Qed.

Lemma in_remove_middle {A} (pre post : list A) (item x : A) :
  In x (pre ++ post) -> In x (pre ++ item :: post).
Proof.
  rewrite !in_app_iff. simpl. tauto.
Qed.

Lemma cmd_take_step g n item_name :
  wf g -> step_ok g n (cmd_take item_name (mkState g n)).
Proof.
  intros Hwf. pose proof Hwf as (p & rid & room & Hp & Hc & Hr).
  destruct (find (name_is item_name) (Room.items room)) as [item|] eqn:Hf.
  - destruct (Item.can_take item) eqn:Ht.
    + destruct (list_remove_found _ _ _ Hf) as (pre & post & Hl & _ & _ & Hrm).
      rewrite (cmd_take_taken _ n _ _ _ _ _ _ _ Hp Hc Hr Hf Ht Hrm).
      eexists _, _, _. split; [reflexivity|].
      split; [|split; [|lia]].
      * exists (Player.with_inventory (Player.inventory p ++ [item]) p), rid.
        eexists. split; [reflexivity|]. split; [exact Hc|].
        unfold taken_game. simpl. apply lookup_insert_eq.
      * unfold taken_game.
        eapply game_evolves_trans; [apply game_evolves_player|].
        eapply game_evolves_update; [exact Hr|].
        split; simpl; auto. rewrite Hl. apply in_remove_middle.
    + rewrite (cmd_take_refused _ n _ _ _ _ _ Hp Hc Hr Hf Ht).
      apply step_ok_same; exact Hwf.
  - rewrite (cmd_take_absent _ n _ _ _ _ Hp Hc Hr Hf).
    apply step_ok_same; exact Hwf.
Qed.

Lemma lookup_current_room_wf g p rid room :
  player g = Some p -> Player.current_room p = Some rid ->
  rooms g !! rid = Some room -> lookup_current_room g = Some room.
Proof.
  intros Hp Hc Hr. unfold lookup_current_room, current_room_id.
  rewrite Hp, Hc. exact Hr.
Qed.

Lemma get_contextual_hint_eq svc g n p rid room :
  player g = Some p -> Player.current_room p = Some rid ->
  rooms g !! rid = Some room ->
  get_contextual_hint svc (mkState g n)
  = Some (default default_hint (hint_reply svc n (hint_request room p)),
          mkState g (S n)).
Proof.
  intros Hp Hc Hr. unfold get_contextual_hint. run_monad.
  rewrite (lookup_current_room_wf _ _ _ _ Hp Hc Hr), Hp. simpl.
  destruct (hint_reply svc n _); reflexivity.
Qed.

Lemma get_contextual_hint_step svc g n :
  wf g -> step_ok g n (get_contextual_hint svc (mkState g n)).
Proof.
  intros Hwf. pose proof Hwf as (p & rid & room & Hp & Hc & Hr).
  rewrite (get_contextual_hint_eq svc _ n _ _ _ Hp Hc Hr).
  eexists _, g, _. split; [reflexivity|].
  split; [exact Hwf|]. split; [apply game_evolves_refl | lia].
Qed.

Lemma cmd_examine_step g n target :
  wf g -> step_ok g n (cmd_examine target (mkState g n)).
Proof.
  intros Hwf. pose proof Hwf as (p & rid & room & Hp & Hc & Hr).
  unfold cmd_examine. run_monad.
  rewrite (lookup_current_room_wf _ _ _ _ Hp Hc Hr), Hp. simpl.
  destruct (find _ (Player.inventory p)); [apply step_ok_same; exact Hwf|].
  destruct (find _ (Room.items room)); apply step_ok_same; exact Hwf.
Qed.

Lemma process_command_step svc g n command :
  wf g -> step_ok g n (process_command svc command (mkState g n)).
Proof.
  intros Hwf. unfold process_command.
  destruct (Str.split (Str.lower command)) as [|verb rest];
    [apply step_ok_same; exact Hwf|].
  destruct (String.eqb verb "look"); [apply cmd_look_step; exact Hwf|].
  destruct (String.eqb verb "inventory" || String.eqb verb "i");
    [apply cmd_inventory_step; exact Hwf|].
  destruct (is_move_verb verb);
    [apply handle_room_transition_step; exact Hwf|].
  destruct (String.eqb verb "take" && _); [apply cmd_take_step; exact Hwf|].
  destruct (String.eqb verb "help"); [apply step_ok_same; exact Hwf|].
  destruct (String.eqb verb "hint");
    [apply get_contextual_hint_step; exact Hwf|].
  destruct (String.eqb verb "examine" && _);
    [apply cmd_examine_step; exact Hwf|].
  apply step_ok_same; exact Hwf.
Qed.

(** A whole session returns, and the game it started from evolves into the
    one it leaves. *)
Lemma run_steps svc commands :
  forall g n, wf g ->
  exists outs g' n',
    run svc commands (mkState g n) = Some (outs, mkState g' n')
    /\ wf g' /\ game_evolves g g' /\ (n <= n')%nat
    /\ length outs = length commands.
Proof.
  induction commands as [|c cs IH]; intros g n Hwf; simpl.
  - exists [], g, n. split; [reflexivity|]. split; [exact Hwf|].
    split; [apply game_evolves_refl|]. split; [lia | reflexivity].
  - destruct (process_command_step svc g n c Hwf)
      as (out & g1 & n1 & E1 & Hwf1 & Hev1 & Hn1).
    destruct (IH g1 n1 Hwf1) as (outs & g2 & n2 & E2 & Hwf2 & Hev2 & Hn2 & Hlen).
    exists (out :: outs), g2, n2. unfold bind. rewrite E1, E2.
    split; [reflexivity|]. split; [exact Hwf2|].
    split; [eapply game_evolves_trans; eassumption|].
    split; [lia | simpl; congruence].
Qed.

(** ** Initialization and reachable states *)

Lemma generate_story_theme_eq svc g n :
  generate_story_theme svc (mkState g n) = Some (tt, mkState (themed svc n g) (S n)).
Proof. reflexivity. Qed.

Lemma initialize_game_eq svc g n :
  initialize_game svc (mkState g n)
  = Some (tt, mkState (initialized svc n g) (S (S n))).
Proof.
  unfold initialize_game, bind. rewrite generate_story_theme_eq.
  rewrite generate_room_eq. reflexivity.
Qed.

Lemma themed_depth svc n g :
  current_path_depth (themed svc n g) = current_path_depth g
  /\ rooms (themed svc n g) = rooms g.
Proof.
  unfold themed, story_theme_try.
  destruct (theme_reply svc n) as [sd|]; [|split; reflexivity].
  destruct (sj_theme sd); [|split; reflexivity].
  destruct (sj_goal sd); [|split; reflexivity].
  destruct (sj_backstory sd); split; reflexivity.
Qed.

Lemma wf_initialized svc n g : wf (initialized svc n g).
Proof.
  eexists _, "start", _. split; [reflexivity|]. split; [reflexivity|].
  unfold initialized. simpl. apply lookup_insert_eq.
Qed.

(** In a session the player stands in a realized room, [start] is realized,
    and the depth counts the realized rooms other than [start]. *)
Lemma reachable_invariant svc st :
  reachable svc st ->
  wf (self st)
  /\ is_Some (rooms (self st) !! "start")
  /\ current_path_depth (self st) = Z.of_nat (size (rooms (self st))) - 1.
Proof.
  induction 1 as [n | st command out st' _ IH Hstep | st direction out st' _ IH Hstep].
  - split; [apply wf_initialized|]. unfold initialized. simpl.
    destruct (themed_depth svc n new_game) as [Hd Hrm]. rewrite Hd, Hrm. simpl.
    split; [rewrite lookup_insert_eq; eauto|].
    rewrite map_size_insert_None by apply lookup_empty.
    rewrite map_size_empty. reflexivity.
  - destruct IH as (Hwf & [s0 Hs0] & Hcount). destruct st as [g n].
    destruct (process_command_step svc g n command Hwf)
      as (out1 & g' & n' & E & Hwf' & Hev & _).
    simpl in *. rewrite E in Hstep. injection Hstep as <- <-. simpl.
    split; [exact Hwf'|].
    destruct (ge_rooms _ _ Hev _ _ Hs0) as (s1 & Hs1 & _).
    split; [rewrite Hs1; eauto|]. pose proof (ge_count _ _ Hev). lia.
  - destruct IH as (Hwf & [s0 Hs0] & Hcount). destruct st as [g n].
    destruct (handle_room_transition_step svc g n direction Hwf)
      as (out1 & g' & n' & E & Hwf' & Hev & _).
    unfold cmd_move in Hstep. simpl in *. rewrite E in Hstep.
    injection Hstep as <- <-. simpl.
    split; [exact Hwf'|].
    destruct (ge_rooms _ _ Hev _ _ Hs0) as (s1 & Hs1 & _).
    split; [rewrite Hs1; eauto|]. pose proof (ge_count _ _ Hev). lia.
Qed.

(** ** Facts on strings *)

Lemma isspace_lower_char c : Str.isspace (Str.lower_char c) = Str.isspace c.
Proof. destruct c as [[] [] [] [] [] [] [] []]; reflexivity. Qed.

Lemma lower_char_idem c : Str.lower_char (Str.lower_char c) = Str.lower_char c.
Proof. destruct c as [[] [] [] [] [] [] [] []]; reflexivity. Qed.

Lemma lower_cons c s :
  Str.lower (String c s) = String (Str.lower_char c) (Str.lower s).
Proof. reflexivity. Qed.

Lemma lower_idem s : Str.lower (Str.lower s) = Str.lower s.
Proof.
  induction s as [|c s IH]; [reflexivity|].
  rewrite !lower_cons, lower_char_idem, IH. reflexivity.
Qed.

Lemma append_cons d s t : String d s +:+ t = String d (s +:+ t).
Proof. reflexivity. Qed.

Lemma lower_snoc s c :
  Str.lower (s +:+ String c EmptyString)
  = Str.lower s +:+ String (Str.lower_char c) EmptyString.
Proof.
  induction s as [|d s IH]; [reflexivity|].
  rewrite append_cons, !lower_cons, IH. reflexivity.
Qed.

Lemma flush_lower cur ws :
  Str.flush (Str.lower cur) (map Str.lower ws) = map Str.lower (Str.flush cur ws).
Proof. destruct cur; reflexivity. Qed.

Lemma split_from_lower s : forall cur,
  Str.split_from (Str.lower cur) (Str.lower s)
  = map Str.lower (Str.split_from cur s).
Proof.
  induction s as [|c s IH]; intros cur.
  - apply (flush_lower cur []).
  - rewrite lower_cons. cbn [Str.split_from]. rewrite isspace_lower_char.
    destruct (Str.isspace c).
    + rewrite <- flush_lower. f_equal. apply (IH EmptyString).
    + rewrite <- lower_snoc. apply IH.
Qed.

(** Lower-casing a line lower-cases its words. *)
Lemma split_lower s : Str.split (Str.lower s) = map Str.lower (Str.split s).
Proof. apply (split_from_lower s EmptyString). Qed.

Lemma truthy_snoc s c : Str.truthy (s +:+ String c EmptyString) = true.
Proof. destruct s; reflexivity. Qed.

Lemma split_from_truthy s : forall cur,
  Forall (fun w => Str.truthy w = true) (Str.split_from cur s).
Proof.
  induction s as [|c s IH]; intros cur; cbn [Str.split_from].
  - destruct cur; simpl; auto.
  - destruct (Str.isspace c); [|apply IH].
    destruct cur; simpl; [apply IH|].
    constructor; [reflexivity | apply IH].
Qed.

(** [split] returns no empty word. *)
Lemma split_truthy s : Forall (fun w => Str.truthy w = true) (Str.split s).
Proof. apply split_from_truthy. Qed.

(** The eight movement verbs, none of which is [look], [inventory] or [i]. *)
Lemma is_move_verb_cases verb :
  is_move_verb verb = true ->
  verb = "n" \/ verb = "s" \/ verb = "e" \/ verb = "w"
  \/ verb = "north" \/ verb = "south" \/ verb = "east" \/ verb = "west".
Proof.
  unfold is_move_verb, move_verbs. cbn [existsb].
  rewrite !orb_true_iff, !String.eqb_eq. intuition discriminate.
Qed.

Lemma process_command_move svc command verb rest st :
  Str.split (Str.lower command) = verb :: rest ->
  is_move_verb verb = true ->
  process_command svc command st = cmd_move svc verb st.
Proof.
  intros Hsplit Hverb. unfold process_command. rewrite Hsplit.
  destruct (is_move_verb_cases verb Hverb)
    as [->|[->|[->|[->|[->|[->|[->| ->]]]]]]]; reflexivity.
Qed.

(** ** A sample session *)

Lemma wf_sample_hall : wf (self Sample.st_hall).
Proof. apply wf_initialized. Defined.

(** ** Movement verbs *)

(** C1, as the code has it: a line whose first word, lower-cased, is one of
    the eight movement verbs is passed to the navigation controller with
    that word itself as the direction; no short form is substituted. *)
Theorem move_verb_passed_verbatim svc command verb rest st :
  Str.split (Str.lower command) = verb :: rest ->
  is_move_verb verb = true ->
  process_command svc command st = handle_room_transition svc verb st.
Proof.
  intros Hsplit Hverb. apply (process_command_move svc command verb rest st Hsplit Hverb).
Qed.

Lemma move_verb_passed_verbatim_witness :
  process_command Sample.svc "  North now" Sample.st_hall
  = handle_room_transition Sample.svc "north" Sample.st_hall.
Proof.
  apply (move_verb_passed_verbatim Sample.svc "  North now" "north" ["now"]);
    reflexivity.
Defined.

(** C1 fails as stated: in the hall, whose exits are [n] and [east], the
    line [n] moves the player to [start_n] and the line [north] is
    refused: the two words are different keys of the exits. *)
Lemma north_is_not_n :
  Dict.get "n" [("n", "start_n"); ("east", "start_east")] = Some "start_n"
  /\ Dict.get "north" [("n", "start_n"); ("east", "start_east")] = None
  /\ current_room_id (self (Sample.after ["n"] Sample.st_hall)) = Some "start_n"
  /\ process_command Sample.svc "north" Sample.st_hall
     = Some (cannot_go, Sample.st_hall)
  /\ process_command Sample.svc "north" Sample.st_hall
     <> process_command Sample.svc "n" Sample.st_hall.
Proof.
  split; [reflexivity|]. split; [reflexivity|]. split; [reflexivity|].
  split; [reflexivity|]. vm_compute. discriminate.
Qed.

(** ** Path depth *)

Lemma arrive_depth rid room g :
  current_path_depth (snd (arrive rid room g)) = current_path_depth g.
Proof.
  unfold arrive, looked.
  destruct (Room.is_goal room), (Room.visited room); reflexivity.
Qed.

(** C2, as the code has it: the realization of [start] by
    [initialize_game] leaves the depth at 0; a move that realizes a room,
    generated or fallback, adds exactly 1; a move into a realized room or a
    refused move leaves it; so in a session the depth is the number of
    realized rooms other than [start]. *)
Theorem path_depth_counts_moves svc g n direction :
  wf g ->
  (exists g0,
      initialize_game svc (mkState new_game n) = Some (tt, mkState g0 (S (S n)))
      /\ is_Some (rooms g0 !! "start") /\ current_path_depth g0 = 0)
  /\ (exists out g' n',
         handle_room_transition svc direction (mkState g n)
         = Some (out, mkState g' n')
         /\ match destination g direction with
            | Some next =>
                match rooms g !! next with
                | None => is_Some (rooms g' !! next)
                          /\ current_path_depth g' = current_path_depth g + 1
                | Some _ => current_path_depth g' = current_path_depth g
                end
            | None => current_path_depth g' = current_path_depth g
            end)
  /\ (forall st, reachable svc st ->
        current_path_depth (self st) = Z.of_nat (size (rooms (self st))) - 1).
Proof.
  intros (p & rid & cur & Hp & Hc & Hcur). split; [|split].
  - exists (initialized svc n new_game). split; [apply initialize_game_eq|].
    unfold initialized. simpl. split; [rewrite lookup_insert_eq; eauto|].
    apply (themed_depth svc n new_game).
  - unfold destination. rewrite (lookup_current_room_wf _ _ _ _ Hp Hc Hcur).
    destruct (Dict.get direction (Room.exits cur)) as [next|] eqn:Hd.
    + destruct (rooms g !! next) as [r|] eqn:Hr.
      * rewrite (handle_room_transition_existing svc _ n _ _ _ _ _ _ Hp Hc Hcur Hd Hr).
        eexists _, _, _. split; [reflexivity|]. rewrite arrive_depth.
        reflexivity.
      * rewrite (handle_room_transition_new svc _ n _ _ _ _ _ Hp Hc Hcur Hd Hr).
        eexists _, _, _. split; [reflexivity|]. split.
        -- rewrite arrive_lookup; [eauto | apply lookup_insert_eq].
        -- rewrite arrive_depth. reflexivity.
    + rewrite (handle_room_transition_refused svc g n cur direction);
        [| apply (lookup_current_room_wf _ _ _ _ Hp Hc Hcur) | exact Hd].
      eexists _, _, _. split; reflexivity.
  - intros st Hst. apply (reachable_invariant svc st Hst).
Qed.

Lemma path_depth_counts_moves_witness :
  exists out g' n',
    handle_room_transition Sample.svc "n" (mkState (self Sample.st_hall) 2)
    = Some (out, mkState g' n')
    /\ is_Some (rooms g' !! "start_n")
    /\ current_path_depth g' = current_path_depth (self Sample.st_hall) + 1.
Proof.
  exact (proj1 (proj2 (path_depth_counts_moves Sample.svc (self Sample.st_hall)
                         2 "n" wf_sample_hall))).
Defined.

(** C2 fails as stated: [initialize_game] realizes [start], which the new
    game did not hold, and the depth stays 0 instead of becoming 1. *)
Lemma start_realization_not_counted :
  rooms new_game !! "start" = None
  /\ current_path_depth new_game = 0
  /\ exists g0,
       initialize_game Sample.svc (mkState new_game 0) = Some (tt, mkState g0 2)
       /\ is_Some (rooms g0 !! "start")
       /\ current_path_depth g0 = 0
       /\ current_path_depth g0 <> current_path_depth new_game + 1.
Proof.
  split; [reflexivity|]. split; [reflexivity|].
  exists (initialized Sample.svc 0 new_game).
  split; [reflexivity|]. split; [vm_compute; eauto|].
  split; [reflexivity|]. vm_compute. discriminate.
Qed.

(** ** Refused moves *)

(** C5: a move in a direction that is no key of the exits of the current
    room returns the refusal and leaves the whole state as it was: the
    room of the player, the rooms, the depth, the inventory and the number
    of calls; so through [cmd_move] and through the interpreter. *)
Theorem missing_exit_refused svc g n cur direction :
  lookup_current_room g = Some cur ->
  Dict.get direction (Room.exits cur) = None ->
  cannot_go = "You can't go that way."
  /\ handle_room_transition svc direction (mkState g n)
     = Some (cannot_go, mkState g n)
  /\ cmd_move svc direction (mkState g n) = Some (cannot_go, mkState g n)
  /\ forall command rest,
       Str.split (Str.lower command) = direction :: rest ->
       is_move_verb direction = true ->
       process_command svc command (mkState g n)
       = Some (cannot_go, mkState g n).
Proof.
  intros Hcur Hd.
  pose proof (handle_room_transition_refused svc g n cur direction Hcur Hd) as E.
  split; [reflexivity|]. split; [exact E|]. split; [exact E|].
  intros command rest Hsplit Hverb.
  rewrite (process_command_move svc command direction rest _ Hsplit Hverb).
  exact E.
Qed.

Lemma missing_exit_refused_witness :
  process_command Sample.svc "South" Sample.st_hall
  = Some (cannot_go, Sample.st_hall).
Proof.
  refine (proj2 (proj2 (proj2
            (missing_exit_refused Sample.svc (self Sample.st_hall) 2 _ "south" _ _)))
            "South" [] _ _); reflexivity.
Defined.

(** ** Realization happens once *)

Lemma marked_entered r : entered (marked r) = true.
Proof.
  unfold entered, marked. destruct (Room.is_goal r) eqn:Hg; simpl.
  - rewrite Hg. reflexivity.
  - apply orb_true_r.
Qed.

Lemma marked_id r : entered r = true -> marked r = r.
Proof.
  unfold entered, marked. destruct r as [? ? ? ? v ? ? ? gl]; simpl.
  destruct gl; [reflexivity|]. simpl. intros ->. reflexivity.
Qed.

Lemma entered_evolves r r' : room_evolves r r' -> entered r = true -> entered r' = true.
Proof.
  intros Hev. unfold entered. rewrite (re_is_goal _ _ Hev).
  destruct (Room.is_goal r); [reflexivity|]. simpl.
  apply (re_visited _ _ Hev).
Qed.

Lemma arrive_rooms rid room g :
  rooms g !! rid = Some room ->
  rooms (snd (arrive rid room g)) = <[rid := marked room]> (rooms g).
Proof.
  intros Hr. unfold arrive, looked, marked.
  destruct (Room.is_goal room) eqn:Hg; simpl.
  - symmetry. apply insert_id. exact Hr.
  - destruct (Room.visited room) eqn:Hv; simpl; [|reflexivity].
    symmetry. apply insert_id. rewrite Hr. f_equal.
    destruct room; simpl in *; subst; reflexivity.
Qed.

(** C3: a move into a room that is realized makes no call to the service,
    leaves the depth, and leaves the stored room as it is but for the
    visited flag, which the first rendering sets; once the room has been
    entered, a move into it leaves the whole map of rooms identical.  A
    move into a room that is not realized makes one call and adds one to
    the depth.  After either, the room is entered and stays so whatever
    commands follow. *)
Theorem realization_idempotent svc g n p rid cur direction next :
  player g = Some p -> Player.current_room p = Some rid ->
  rooms g !! rid = Some cur ->
  Dict.get direction (Room.exits cur) = Some next ->
  exists out g1 n1 r1,
    handle_room_transition svc direction (mkState g n)
    = Some (out, mkState g1 n1)
    /\ rooms g1 !! next = Some r1 /\ entered r1 = true
    /\ match rooms g !! next with
       | Some r =>
           n1 = n /\ current_path_depth g1 = current_path_depth g
           /\ r1 = marked r
           /\ rooms g1 = <[next := r1]> (rooms g)
           /\ (entered r = true -> rooms g1 = rooms g)
       | None =>
           n1 = S n /\ current_path_depth g1 = current_path_depth g + 1
       end
    /\ forall commands,
         exists outs g2 n2 r2,
           run svc commands (mkState g1 n1) = Some (outs, mkState g2 n2)
           /\ rooms g2 !! next = Some r2 /\ entered r2 = true.
Proof.
  intros Hp Hc Hcur Hd.
  assert (Hrun : forall g1 n1 r1, wf g1 -> rooms g1 !! next = Some r1 ->
            entered r1 = true ->
            forall commands, exists outs g2 n2 r2,
              run svc commands (mkState g1 n1) = Some (outs, mkState g2 n2)
              /\ rooms g2 !! next = Some r2 /\ entered r2 = true).
  { intros g1 n1 r1 Hwf1 Hr1 He1 commands.
    destruct (run_steps svc commands g1 n1 Hwf1)
      as (outs & g2 & n2 & E & _ & Hev & _).
    destruct (ge_rooms _ _ Hev _ _ Hr1) as (r2 & Hr2 & Hev2).
    exists outs, g2, n2, r2. split; [exact E|]. split; [exact Hr2|].
    eapply entered_evolves; eassumption. }
  destruct (rooms g !! next) as [r|] eqn:Hr.
  - rewrite (handle_room_transition_existing svc _ n _ _ _ _ _ _ Hp Hc Hcur Hd Hr).
    assert (Hr' : rooms (move_player next p g) !! next = Some r) by exact Hr.
    pose proof (arrive_rooms _ _ _ Hr') as Hrooms. simpl in Hrooms.
    eexists _, _, n, (marked r). split; [reflexivity|].
    assert (Hr1 : rooms (snd (arrive next r (move_player next p g))) !! next
                  = Some (marked r)).
    { rewrite Hrooms. apply lookup_insert_eq. }
    split; [exact Hr1|]. split; [apply marked_entered|].
    split.
    + split; [reflexivity|]. split; [rewrite arrive_depth; reflexivity|].
      split; [reflexivity|]. split; [exact Hrooms|].
      intros He. rewrite Hrooms, (marked_id _ He). apply insert_id. exact Hr.
    + apply (Hrun _ _ (marked r)); [apply wf_arrive; exact Hr | exact Hr1|].
      apply marked_entered.
  - rewrite (handle_room_transition_new svc _ n _ _ _ _ _ Hp Hc Hcur Hd Hr).
    set (g1 := with_current_path_depth (current_path_depth g + 1) g).
    set (r := generated svc n g1 (Some cur) next).
    assert (Hr' : rooms (move_player next p (update_room next r g1)) !! next
                  = Some r) by apply lookup_insert_eq.
    pose proof (arrive_rooms _ _ _ Hr') as Hrooms.
    assert (Hr1 : rooms (snd (arrive next r (move_player next p
                    (update_room next r g1)))) !! next = Some (marked r)).
    { rewrite Hrooms. apply lookup_insert_eq. }
    eexists _, _, (S n), (marked r). split; [reflexivity|].
    split; [exact Hr1|]. split; [apply marked_entered|].
    split.
    + split; [reflexivity|]. rewrite arrive_depth. reflexivity.
    + apply (Hrun _ _ (marked r));
        [apply wf_arrive; apply lookup_insert_eq | exact Hr1|].
      apply marked_entered.
Qed.

Lemma realization_idempotent_witness :
  (exists out g1 n1 r1,
      handle_room_transition Sample.svc "n" Sample.st_hall
      = Some (out, mkState g1 n1)
      /\ rooms g1 !! "start_n" = Some r1 /\ entered r1 = true
      /\ (n1 = 3%nat /\ current_path_depth g1 = 0 + 1)
      /\ forall commands,
           exists outs g2 n2 r2,
             run Sample.svc commands (mkState g1 n1) = Some (outs, mkState g2 n2)
             /\ rooms g2 !! "start_n" = Some r2 /\ entered r2 = true)
  /\ exists out g1 n1 r1,
       handle_room_transition Sample.svc "back"
         (mkState (self (Sample.after ["look"; "n"; "s"] Sample.st_hall)) 4)
       = Some (out, mkState g1 n1)
       /\ rooms (self (Sample.after ["look"; "n"; "s"] Sample.st_hall)) !! "start"
          = Some r1
       /\ rooms g1 !! "start" = Some r1
       /\ n1 = 4%nat
       /\ current_path_depth g1
          = current_path_depth (self (Sample.after ["look"; "n"; "s"] Sample.st_hall))
       /\ rooms g1 = rooms (self (Sample.after ["look"; "n"; "s"] Sample.st_hall)).
Proof.
  split.
  - refine (realization_idempotent Sample.svc (self Sample.st_hall) 2
              _ "start" _ "n" "start_n" _ _ _ _); reflexivity.
  - destruct (realization_idempotent Sample.svc
                (self (Sample.after ["look"; "n"; "s"] Sample.st_hall)) 4
                (Player.mk "Adventurer" [] (Some "start_n_s")) "start_n_s"
                (Room.with_visited true (create_fallback_room "start_n_s"))
                "back" "start" eq_refl eq_refl eq_refl eq_refl)
      as (out & g1 & n1 & r1 & E & Hr1 & _ & Hsame & _).
    destruct Hsame as (Hn & Hdepth & Hmarked & _ & Hrooms).
    exists out, g1, n1, r1. split; [exact E|].
    split; [rewrite Hmarked; reflexivity|]. split; [exact Hr1|].
    split; [exact Hn|]. split; [exact Hdepth|]. exact (Hrooms eq_refl).
Defined.

(** ** Fallback rooms *)

Lemma generated_fallback svc n g previous_room room_id :
  generation_fails svc n g previous_room room_id ->
  generated svc n g previous_room room_id = create_fallback_room room_id.
Proof.
  unfold generation_fails, generated.
  destruct (room_reply svc n _) as [rd|]; [|reflexivity].
  intros ->. reflexivity.
Qed.

(** C4: when the request made by a move into the unrealized room [next]
    fails, the room stored is the fallback template, with its name, its
    description and exactly the exits [forward] to [next_forward] and
    [back] to [start]; [start] stays realized as it was, and the move
    [back] brings the player there without a call.  [generate_room]
    returns the template on every failed request, for [start] too. *)
Theorem fallback_navigable svc g n p rid cur direction next start_room :
  player g = Some p -> Player.current_room p = Some rid ->
  rooms g !! rid = Some cur ->
  Dict.get direction (Room.exits cur) = Some next ->
  rooms g !! next = None ->
  rooms g !! "start" = Some start_room ->
  generation_fails svc n
    (with_current_path_depth (current_path_depth g + 1) g) (Some cur) next ->
  (forall g0 m previous_room room_id,
      generation_fails svc m g0 previous_room room_id ->
      generate_room svc room_id previous_room (mkState g0 m)
      = Some (create_fallback_room room_id, mkState g0 (S m)))
  /\ Room.name (create_fallback_room next) = "Mysterious Chamber"
  /\ Room.description (create_fallback_room next)
     = "A mysterious chamber with shifting walls."
  /\ Room.exits (create_fallback_room next)
     = [("forward", next +:+ "_forward"); ("back", "start")]
  /\ exists out g',
       handle_room_transition svc direction (mkState g n)
       = Some (out, mkState g' (S n))
       /\ rooms g' !! next
          = Some (Room.with_visited true (create_fallback_room next))
       /\ current_room_id g' = Some next
       /\ rooms g' !! "start" = Some start_room
       /\ exists out' g'',
            handle_room_transition svc "back" (mkState g' (S n))
            = Some (out', mkState g'' (S n))
            /\ current_room_id g'' = Some "start"
            /\ rooms g'' !! "start" = Some (marked start_room).
Proof.
  intros Hp Hc Hcur Hd Hnext Hstart Hfail.
  split; [|split; [reflexivity|split; [reflexivity|split; [reflexivity|]]]].
  { intros g0 m previous_room room_id Hf.
    rewrite generate_room_eq, (generated_fallback _ _ _ _ _ Hf). reflexivity. }
  rewrite (handle_room_transition_new svc _ n _ _ _ _ _ Hp Hc Hcur Hd Hnext).
  rewrite (generated_fallback _ _ _ _ _ Hfail).
  set (g1 := with_current_path_depth (current_path_depth g + 1) g).
  set (fb := create_fallback_room next).
  set (g' := snd (arrive next fb (move_player next p (update_room next fb g1)))).
  assert (Hne : next <> "start") by congruence.
  assert (Hrooms : rooms g' = <[next := Room.with_visited true fb]> (rooms g)).
  { change (rooms g')
      with (<[next := Room.with_visited true fb]> (<[next := fb]> (rooms g))).
    apply insert_insert_eq. }
  assert (Hpl : player g' = Some (Player.with_current_room (Some next) p)).
  { reflexivity. }
  assert (Hfb : rooms g' !! next = Some (Room.with_visited true fb)).
  { rewrite Hrooms. apply lookup_insert_eq. }
  assert (Hst : rooms g' !! "start" = Some start_room).
  { rewrite Hrooms, lookup_insert_ne by exact Hne. exact Hstart. }
  eexists _, g'. split; [reflexivity|]. split; [exact Hfb|].
  split; [reflexivity|]. split; [exact Hst|].
  rewrite (handle_room_transition_existing svc g' (S n) _ next _ "back" "start"
             start_room Hpl eq_refl Hfb eq_refl Hst).
  eexists _, _. split; [reflexivity|]. split.
  - unfold current_room_id. rewrite arrive_player. reflexivity.
  - rewrite arrive_rooms by exact Hst. apply lookup_insert_eq.
Qed.

Lemma fallback_navigable_witness :
  exists out g',
    handle_room_transition Sample.svc "s" (mkState (self Sample.st_vault) 3)
    = Some (out, mkState g' 4)
    /\ rooms g' !! "start_n_s"
       = Some (Room.with_visited true (create_fallback_room "start_n_s"))
    /\ current_room_id g' = Some "start_n_s"
    /\ rooms g' !! "start" = rooms (self Sample.st_vault) !! "start"
    /\ exists out' g'',
         handle_room_transition Sample.svc "back" (mkState g' 4)
         = Some (out', mkState g'' 4)
         /\ current_room_id g'' = Some "start"
         /\ is_Some (rooms g'' !! "start").
Proof.
  destruct (proj2 (proj2 (proj2 (proj2
    (fallback_navigable Sample.svc (self Sample.st_vault) 3
       (Player.mk "Adventurer" [] (Some "start_n")) "start_n"
       (default (create_fallback_room "start_n")
                (room_of_json "start_n" Sample.vault_json))
       "s" "start_n_s"
       (default (create_fallback_room "start")
                (room_of_json "start" Sample.hall_json))
       eq_refl eq_refl eq_refl eq_refl eq_refl eq_refl I)))))
    as (out & g' & E & Hfb & Hcur & Hstart & out' & g'' & E' & Hcur' & Hstart').
  exists out, g'. split; [exact E|]. split; [exact Hfb|]. split; [exact Hcur|].
  split; [exact Hstart|]. exists out', g''. split; [exact E'|].
  split; [exact Hcur'|]. rewrite Hstart'. eauto.
Defined.

(** ** Taking items *)

(** C6, as the code has it: [cmd_take] acts on the first item of the room,
    in the order of the room, whose lower-cased name is the name given, and
    on no other.  When that item can be taken, the player holds the
    inventory of before followed by the item, and the room stored holds
    the items of before without that one occurrence, in their order, every
    other field and every other room as before.  When that item cannot be
    taken, a refusal is returned and the state is unchanged, whatever items
    of that name follow it.  When no item has the name, the absence is
    reported and the state is unchanged.  The interpreter passes the second
    word lower-cased, so the match ignores case on both sides.  Stated for
    item names and lines in ASCII. *)
Theorem take_moves_item svc g n p rid room item_name :
  player g = Some p -> Player.current_room p = Some rid ->
  rooms g !! rid = Some room ->
  Forall (fun item => is_ascii (Item.name item) = true) (Room.items room) ->
  match find (name_is item_name) (Room.items room) with
  | Some item =>
      if Item.can_take item then
        exists pre post g' p' room',
          Room.items room = pre ++ item :: post
          /\ Forall (fun y => name_is item_name y = false) pre
          /\ cmd_take item_name (mkState g n)
             = Some ("Taken: " +:+ Item.name item, mkState g' n)
          /\ player g' = Some p'
          /\ Player.inventory p' = Player.inventory p ++ [item]
          /\ Player.name p' = Player.name p
          /\ Player.current_room p' = Some rid
          /\ rooms g' !! rid = Some room'
          /\ Room.items room' = pre ++ post
          /\ room_evolves room room'
          /\ Room.visited room' = Room.visited room
          /\ (forall rid', rid' <> rid -> rooms g' !! rid' = rooms g !! rid')
          /\ current_path_depth g' = current_path_depth g
          /\ In item (Player.inventory p')
          /\ (~ In item post -> ~ In item (Room.items room'))
      else
        cmd_take item_name (mkState g n)
        = Some ("You can't take the " +:+ Item.name item +:+ ".", mkState g n)
  | None =>
      cmd_take item_name (mkState g n)
      = Some ("I don't see a " +:+ item_name +:+ " here.", mkState g n)
  end
  /\ forall command verb noun rest,
       is_ascii command = true ->
       Str.split command = verb :: noun :: rest ->
       Str.lower verb = "take" ->
       process_command svc command (mkState g n)
       = cmd_take (Str.lower noun) (mkState g n)
       /\ forall item,
            name_is (Str.lower noun) item
            = String.eqb (Str.lower (Item.name item)) (Str.lower noun).
Proof.
  intros Hp Hc Hr _. split.
  - destruct (find (name_is item_name) (Room.items room)) as [item|] eqn:Hf.
    + destruct (Item.can_take item) eqn:Ht.
      * destruct (list_remove_found _ _ _ Hf) as (pre & post & Hl & Hx & Hpre & Hrm).
        exists pre, post, (taken_game rid room p item (pre ++ post) g),
               (Player.with_inventory (Player.inventory p ++ [item]) p),
               (Room.with_items (pre ++ post) room).
        split; [exact Hl|]. split; [exact Hpre|].
        split; [apply (cmd_take_taken _ n _ _ _ _ _ _ _ Hp Hc Hr Hf Ht Hrm)|].
        split; [reflexivity|]. split; [reflexivity|]. split; [reflexivity|].
        split; [exact Hc|].
        split; [unfold taken_game; simpl; apply lookup_insert_eq|].
        split; [reflexivity|].
        split; [split; simpl; auto; rewrite Hl; apply in_remove_middle|].
        split; [reflexivity|].
        split; [intros rid' Hne; unfold taken_game; simpl;
                apply lookup_insert_ne; congruence|].
        split; [reflexivity|].
        split; [simpl; apply in_or_app; right; left; reflexivity|].
        simpl. intros Hpost Hin. apply in_app_or in Hin. destruct Hin as [Hin|Hin].
        -- rewrite Forall_forall in Hpre.
           assert (Hy : name_is item_name item = false).
           { apply Hpre. apply list_elem_of_In. exact Hin. }
           congruence.
        -- exact (Hpost Hin).
      * apply (cmd_take_refused _ n _ _ _ _ _ Hp Hc Hr Hf Ht).
    + apply (cmd_take_absent _ n _ _ _ _ Hp Hc Hr Hf).
  - intros command verb noun rest _ Hsplit Hverb. split; [|reflexivity].
    unfold process_command. rewrite split_lower, Hsplit. cbn [map].
    rewrite Hverb.
    assert (Hnoun : Str.truthy (Str.lower noun) = true).
    { pose proof (split_truthy command) as Hall. rewrite Hsplit in Hall.
      inversion Hall as [|? ? _ Hrest]; subst.
      inversion Hrest as [|? ? Hn _]; subst.
      destruct noun; [discriminate Hn | reflexivity]. }
    rewrite Hnoun. reflexivity.
Qed.

Lemma take_moves_item_witness :
  (exists pre post g' p' room',
      [Item.mk "Key" "A rusty key." true; Item.mk "Statue" "A heavy statue." false]
      = pre ++ Item.mk "Key" "A rusty key." true :: post
      /\ Forall (fun y => name_is "key" y = false) pre
      /\ cmd_take "key" (mkState (self Sample.st_hall) 2)
         = Some ("Taken: Key", mkState g' 2)
      /\ player g' = Some p'
      /\ Player.inventory p' = [] ++ [Item.mk "Key" "A rusty key." true]
      /\ Player.name p' = "Adventurer"
      /\ Player.current_room p' = Some "start"
      /\ rooms g' !! "start" = Some room'
      /\ Room.items room' = pre ++ post
      /\ room_evolves (default (create_fallback_room "start")
                               (room_of_json "start" Sample.hall_json)) room'
      /\ Room.visited room' = false
      /\ (forall rid', rid' <> "start" ->
            rooms g' !! rid' = rooms (self Sample.st_hall) !! rid')
      /\ current_path_depth g' = 0
      /\ In (Item.mk "Key" "A rusty key." true) (Player.inventory p')
      /\ (~ In (Item.mk "Key" "A rusty key." true) post ->
          ~ In (Item.mk "Key" "A rusty key." true) (Room.items room')))
  /\ cmd_take "statue" (mkState (self Sample.st_hall) 2)
     = Some ("You can't take the Statue.", mkState (self Sample.st_hall) 2)
  /\ cmd_take "lamp" (mkState (self Sample.st_hall) 2)
     = Some ("I don't see a lamp here.", mkState (self Sample.st_hall) 2)
  /\ process_command Sample.svc "TAKE Key" (mkState (self Sample.st_hall) 2)
     = cmd_take "key" (mkState (self Sample.st_hall) 2).
Proof.
  pose (hall := default (create_fallback_room "start")
                        (room_of_json "start" Sample.hall_json)).
  pose (pl := Player.mk "Adventurer" [] (Some "start")).
  assert (Hascii : Forall (fun item => is_ascii (Item.name item) = true)
                          (Room.items hall)).
  { repeat constructor. }
  split; [|split; [|split]].
  - exact (proj1 (take_moves_item Sample.svc (self Sample.st_hall) 2 pl "start"
                    hall "key" eq_refl eq_refl eq_refl Hascii)).
  - exact (proj1 (take_moves_item Sample.svc (self Sample.st_hall) 2 pl "start"
                    hall "statue" eq_refl eq_refl eq_refl Hascii)).
  - exact (proj1 (take_moves_item Sample.svc (self Sample.st_hall) 2 pl "start"
                    hall "lamp" eq_refl eq_refl eq_refl Hascii)).
  - exact (proj1 (proj2 (take_moves_item Sample.svc (self Sample.st_hall) 2 pl
                           "start" hall "key" eq_refl eq_refl eq_refl Hascii)
                    "TAKE Key" "TAKE" "Key" [] eq_refl eq_refl eq_refl)).
Defined.

(** C6 fails as stated: the cellar holds a key that cannot be taken and,
    after it, a key that can.  An item of the room matches the name and
    can be taken, and [cmd_take] refuses all the same, for the first key,
    and leaves the state as it was: the key that can be taken is in the
    room and not in the inventory. *)
Lemma first_match_decides_take :
  lookup_current_room (self TwoKeys.st_cellar)
  = Some (Room.mk "Cellar" "A cellar."
            [Item.mk "Key" "A key set in stone." false;
             Item.mk "key" "A loose key." true]
            [("n", "start_n")] false (Some []) EmptyString EmptyString false)
  /\ name_is "key" (Item.mk "key" "A loose key." true) = true
  /\ Item.can_take (Item.mk "key" "A loose key." true) = true
  /\ cmd_take "key" TwoKeys.st_cellar
     = Some ("You can't take the Key.", TwoKeys.st_cellar)
  /\ process_command TwoKeys.svc "take key" TwoKeys.st_cellar
     = Some ("You can't take the Key.", TwoKeys.st_cellar)
  /\ inventory_of (self TwoKeys.st_cellar) = [].
Proof. repeat split. Qed.

(** ** Hints on the first rendering only *)

Lemma with_visited_same r : Room.visited r = true -> Room.with_visited true r = r.
Proof. destruct r; simpl; intros ->; reflexivity. Qed.

Lemma hint_parts_visited r : Room.visited r = true -> hint_parts r = [].
Proof. unfold hint_parts. intros ->. reflexivity. Qed.

Lemma append_nil_r_str a : a +:+ EmptyString = a.
Proof.
  induction a as [|c a IH]; [reflexivity|]. rewrite append_cons, IH. reflexivity.
Qed.

Lemma append_assoc_str a b c : (a +:+ b) +:+ c = a +:+ (b +:+ c).
Proof.
  induction a as [|d a IH]; [reflexivity|].
  rewrite !append_cons, IH. reflexivity.
Qed.

Lemma length_append_str a b :
  String.length (a +:+ b) = (String.length a + String.length b)%nat.
Proof.
  induction a as [|c a IH]; [reflexivity|].
  rewrite append_cons. simpl. rewrite IH. reflexivity.
Qed.

(** Joining with line breaks puts every part but the first on a new line. *)
Lemma join_lines part rest :
  Str.join Str.nl (part :: rest) = part +:+ lines rest.
Proof.
  revert part. induction rest as [|q rest IH]; intros part.
  - simpl. symmetry. apply append_nil_r_str.
  - change (Str.join Str.nl (part :: q :: rest))
      with (part +:+ Str.nl +:+ Str.join Str.nl (q :: rest)).
    rewrite IH. reflexivity.
Qed.

Lemma lines_app l1 l2 : lines (l1 ++ l2) = lines l1 +:+ lines l2.
Proof.
  induction l1 as [|part l1 IH]; [reflexivity|].
  cbn [app lines]. rewrite IH, !append_assoc_str. reflexivity.
Qed.

Lemma lines_hint_parts r :
  lines (hint_parts r)
  = if Room.visited r then EmptyString else hints_text (Room.hints r).
Proof.
  unfold hint_parts, hints_text. destruct (Room.visited r); [reflexivity|].
  destruct (Room.hints r) as [[|h hs]|]; reflexivity.
Qed.

(** What [cmd_look] returns, written out. *)
Lemma look_text r :
  Str.join Str.nl (description_parts r)
  = room_text r
    +:+ (if Room.visited r then EmptyString else hints_text (Room.hints r)).
Proof.
  unfold description_parts, base_parts, room_text.
  cbn [app]. rewrite join_lines.
  change (Room.description r
          :: (Str.nl +:+ Room.atmosphere r)
          :: Str.nl
          :: (match Room.items r with
              | [] => []
              | _ :: _ => [Str.join Str.nl (map item_line (Room.items r))]
              end ++ [Str.nl +:+ exits_desc r]) ++ hint_parts r)
    with (([Room.description r; Str.nl +:+ Room.atmosphere r; Str.nl]
           ++ match Room.items r with
              | [] => []
              | _ :: _ => [Str.join Str.nl (map item_line (Room.items r))]
              end ++ [Str.nl +:+ exits_desc r]) ++ hint_parts r).
  rewrite lines_app, lines_hint_parts.
  destruct (Room.items r) as [|item rest].
  - rewrite !append_assoc_str. reflexivity.
  - cbn [map]. rewrite join_lines, !append_assoc_str. reflexivity.
Qed.

Lemma append_longer a b : a +:+ b = a -> b = EmptyString.
Proof.
  intros E. apply (f_equal String.length) in E.
  rewrite length_append_str in E. destruct b; [reflexivity|]. simpl in E. lia.
Qed.

(** C7: [cmd_look] returns the text of the room and, only while the room
    is not visited, the lines of its hints after it: the header and one
    line for each hint.  It leaves the room visited and otherwise as it
    was.  A second [cmd_look] returns the text of the room without those
    lines, a different text when there is a hint, and changes nothing.
    Whatever commands follow, the room stays visited and [cmd_look] there
    returns the text of the room alone. *)
Theorem hints_shown_once svc g n p rid room :
  player g = Some p -> Player.current_room p = Some rid ->
  rooms g !! rid = Some room ->
  exists g1 room1,
    cmd_look (mkState g n)
    = Some (room_text room
            +:+ (if Room.visited room then EmptyString
                 else hints_text (Room.hints room)),
            mkState g1 n)
    /\ process_command svc "look" (mkState g n) = cmd_look (mkState g n)
    /\ (forall h hs,
          Room.hints room = Some (h :: hs) ->
          hints_text (Room.hints room)
          = Str.nl +:+ Str.nl
            +:+ "As you take in your surroundings, you notice:"
            +:+ Str.nl +:+ "- " +:+ h +:+ lines (map hint_line hs)
          /\ room_text room +:+ hints_text (Room.hints room) <> room_text room)
    /\ rooms g1 !! rid = Some room1
    /\ Room.visited room1 = true
    /\ Room.items room1 = Room.items room
    /\ room_evolves room room1
    /\ player g1 = Some p
    /\ (Room.visited room = true -> g1 = g)
    /\ cmd_look (mkState g1 n) = Some (room_text room, mkState g1 n)
    /\ forall commands,
         exists outs g2 n2 room2,
           run svc commands (mkState g1 n) = Some (outs, mkState g2 n2)
           /\ rooms g2 !! rid = Some room2
           /\ Room.visited room2 = true
           /\ forall p2,
                player g2 = Some p2 -> Player.current_room p2 = Some rid ->
                cmd_look (mkState g2 n2) = Some (room_text room2, mkState g2 n2).
Proof.
  intros Hp Hc Hr. exists (looked rid room g), (Room.with_visited true room).
  assert (Hr1 : rooms (looked rid room g) !! rid = Some (Room.with_visited true room)).
  { unfold looked. destruct (Room.visited room) eqn:Hv.
    - rewrite with_visited_same by exact Hv. exact Hr.
    - apply lookup_insert_eq. }
  assert (Hp1 : player (looked rid room g) = Some p).
  { rewrite looked_player. exact Hp. }
  assert (Hwf1 : wf (looked rid room g)).
  { exists p, rid, (Room.with_visited true room). auto. }
  split; [rewrite (cmd_look_eq _ _ _ _ _ Hp Hc Hr), look_text; reflexivity|].
  split; [reflexivity|].
  split.
  { intros h hs Hh. rewrite Hh. split; [reflexivity|].
    intros E. apply append_longer in E. discriminate E. }
  split; [exact Hr1|]. split; [reflexivity|]. split; [reflexivity|].
  split; [apply room_evolves_visited; reflexivity|].
  split; [exact Hp1|].
  split; [intros Hv; unfold looked; rewrite Hv; reflexivity|].
  split.
  - rewrite (cmd_look_eq _ n _ _ _ Hp1 Hc Hr1), look_text.
    cbn [Room.visited Room.with_visited]. rewrite append_nil_r_str.
    reflexivity.
  - intros commands.
    destruct (run_steps svc commands _ n Hwf1) as (outs & g2 & n2 & E & _ & Hev & _).
    destruct (ge_rooms _ _ Hev _ _ Hr1) as (room2 & Hr2 & Hev2).
    assert (Hv2 : Room.visited room2 = true)
      by (apply (re_visited _ _ Hev2); reflexivity).
    exists outs, g2, n2, room2. split; [exact E|]. split; [exact Hr2|].
    split; [exact Hv2|].
    intros p2 Hp2 Hc2.
    rewrite (cmd_look_eq _ n2 _ _ _ Hp2 Hc2 Hr2), look_text, Hv2.
    rewrite append_nil_r_str. unfold looked. rewrite Hv2. reflexivity.
Qed.

Lemma hints_shown_once_witness :
  exists g1,
    cmd_look Sample.st_hall
    = Some (Str.nl +:+ "HALL" +:+ Str.nl
            +:+ Str.nl +:+ "A big hall."
            +:+ Str.nl +:+ Str.nl +:+ "Cold."
            +:+ Str.nl +:+ Str.nl
            +:+ Str.nl +:+ "There is Key here."
            +:+ Str.nl +:+ "There is Statue here."
            +:+ Str.nl +:+ Str.nl +:+ "Exits: n, east"
            +:+ Str.nl +:+ Str.nl
            +:+ "As you take in your surroundings, you notice:"
            +:+ Str.nl +:+ "- Try the door.",
            mkState g1 2)
    /\ cmd_look (mkState g1 2)
       = Some (Str.nl +:+ "HALL" +:+ Str.nl
               +:+ Str.nl +:+ "A big hall."
               +:+ Str.nl +:+ Str.nl +:+ "Cold."
               +:+ Str.nl +:+ Str.nl
               +:+ Str.nl +:+ "There is Key here."
               +:+ Str.nl +:+ "There is Statue here."
               +:+ Str.nl +:+ Str.nl +:+ "Exits: n, east",
               mkState g1 2)
    /\ exists room1, rooms g1 !! "start" = Some room1
                     /\ Room.visited room1 = true.
Proof.
  destruct (hints_shown_once Sample.svc (self Sample.st_hall) 2
              (Player.mk "Adventurer" [] (Some "start")) "start"
              (default (create_fallback_room "start")
                       (room_of_json "start" Sample.hall_json))
              eq_refl eq_refl eq_refl)
    as (g1 & room1 & E1 & _ & _ & Hr1 & Hv1 & _ & _ & _ & _ & E2 & _).
  exists g1. split; [exact E1|]. split; [exact E2|].
  exists room1. split; [exact Hr1 | exact Hv1].
Defined.

(** ** Goal rooms *)

Lemma generated_visited svc n g previous_room room_id :
  Room.visited (generated svc n g previous_room room_id) = false.
Proof.
  unfold generated. destruct (room_reply svc n _) as [rd|]; [|reflexivity].
  unfold room_of_json.
  destruct (rj_items rd) as [ijs|]; [|reflexivity].
  destruct (items_of_json ijs); [|reflexivity].
  destruct (rj_suggested_exits rd); [|reflexivity].
  destruct (rj_name rd), (rj_description rd); reflexivity.
Qed.

Lemma description_starts_nl r :
  exists t, Str.join Str.nl (description_parts r) = String (ascii_of_nat 10) t.
Proof. eexists. reflexivity. Qed.

Lemma goal_message_starts_nl r g :
  exists t, goal_message r g = String (ascii_of_nat 10) t.
Proof. eexists. reflexivity. Qed.

(** What a move returns on arrival is never the refusal. *)
Lemma arrive_not_refused rid r g : fst (arrive rid r g) <> cannot_go.
Proof.
  unfold arrive. destruct (Room.is_goal r); cbn [fst].
  - destruct (goal_message_starts_nl r g) as [t ->]. discriminate.
  - destruct (description_starts_nl r) as [t ->]. discriminate.
Qed.

Lemma goal_message_includes r g :
  exists before after,
    goal_message r g = before +:+ goal_description g +:+ after.
Proof.
  exists (Str.nl +:+ Room.description r +:+ Str.nl +:+ Str.nl +:+ "Congratulations! ").
  eexists. unfold goal_message.
  rewrite !append_assoc_str. reflexivity.
Qed.

(** A move through an exit of the current room succeeds: it is not refused
    and the player stands in the room behind the exit, realized. *)
Lemma move_through_exit svc g n p rid cur direction next :
  player g = Some p -> Player.current_room p = Some rid ->
  rooms g !! rid = Some cur ->
  Dict.get direction (Room.exits cur) = Some next ->
  exists out g' n',
    handle_room_transition svc direction (mkState g n)
    = Some (out, mkState g' n')
    /\ out <> cannot_go
    /\ current_room_id g' = Some next
    /\ is_Some (rooms g' !! next).
Proof.
  intros Hp Hc Hcur Hd. destruct (rooms g !! next) as [r|] eqn:Hr.
  - rewrite (handle_room_transition_existing svc _ n _ _ _ _ _ _ Hp Hc Hcur Hd Hr).
    eexists _, _, _. split; [reflexivity|].
    split; [apply arrive_not_refused|].
    split; [unfold current_room_id; rewrite arrive_player; reflexivity|].
    rewrite arrive_lookup by exact Hr. eauto.
  - rewrite (handle_room_transition_new svc _ n _ _ _ _ _ Hp Hc Hcur Hd Hr).
    eexists _, _, _. split; [reflexivity|].
    split; [apply arrive_not_refused|].
    split; [unfold current_room_id; rewrite arrive_player; reflexivity|].
    rewrite arrive_lookup by apply lookup_insert_eq. eauto.
Qed.

Lemma marked_is_goal r : Room.is_goal (marked r) = Room.is_goal r.
Proof. unfold marked. destruct (Room.is_goal r) eqn:Hg; [exact Hg | exact Hg]. Qed.

(** C8: when the room a move enters is a goal room, the move returns the
    completion message, which contains the goal description of the session,
    and renders nothing: the visited flag of the room is left as it was.
    The game goes on: every later command returns, and a move through any
    exit of the goal room is not refused and brings the player behind the
    exit. *)
Theorem goal_room_not_terminal svc g n p rid cur direction next :
  player g = Some p -> Player.current_room p = Some rid ->
  rooms g !! rid = Some cur ->
  Dict.get direction (Room.exits cur) = Some next ->
  exists out g1 n1 r,
    handle_room_transition svc direction (mkState g n)
    = Some (out, mkState g1 n1)
    /\ rooms g1 !! next = Some r
    /\ current_room_id g1 = Some next
    /\ (Room.is_goal r = true ->
        out = goal_message r g1
        /\ goal_description g1 = goal_description g
        /\ (exists before after,
               out = before +:+ goal_description g +:+ after)
        /\ Room.visited r
           = match rooms g !! next with
             | Some r0 => Room.visited r0
             | None => false
             end
        /\ (forall commands, exists outs st',
               run svc commands (mkState g1 n1) = Some (outs, st'))
        /\ forall direction' next',
             Dict.get direction' (Room.exits r) = Some next' ->
             exists out' g2 n2,
               handle_room_transition svc direction' (mkState g1 n1)
               = Some (out', mkState g2 n2)
               /\ out' <> cannot_go
               /\ current_room_id g2 = Some next'
               /\ is_Some (rooms g2 !! next')).
Proof.
  intros Hp Hc Hcur Hd.
  assert (Hgoal : forall g0 n1 r0,
    rooms g0 !! next = Some r0 ->
    goal_description g0 = goal_description g ->
    let g' := move_player next p g0 in
    Room.is_goal (marked r0) = true ->
    fst (arrive next r0 g') = goal_message (marked r0) (snd (arrive next r0 g'))
    /\ goal_description (snd (arrive next r0 g')) = goal_description g
    /\ (exists before after,
           fst (arrive next r0 g') = before +:+ goal_description g +:+ after)
    /\ Room.visited (marked r0) = Room.visited r0
    /\ (forall commands, exists outs st',
           run svc commands (mkState (snd (arrive next r0 g')) n1) = Some (outs, st'))
    /\ forall direction' next',
         Dict.get direction' (Room.exits (marked r0)) = Some next' ->
         exists out' g2 n2,
           handle_room_transition svc direction' (mkState (snd (arrive next r0 g')) n1)
           = Some (out', mkState g2 n2)
           /\ out' <> cannot_go
           /\ current_room_id g2 = Some next'
           /\ is_Some (rooms g2 !! next')).
  { intros g0 n1 r0 Hr0 Hgd g' Hg. rewrite marked_is_goal in Hg.
    assert (Hm : marked r0 = r0) by (unfold marked; rewrite Hg; reflexivity).
    assert (Ha : arrive next r0 g' = (goal_message r0 g', g'))
      by (unfold arrive; rewrite Hg; reflexivity).
    rewrite Hm, Ha. cbn [fst snd].
    split; [reflexivity|]. split; [exact Hgd|].
    split; [rewrite <- Hgd; apply (goal_message_includes r0 g')|].
    split; [reflexivity|]. split.
    - intros commands.
      destruct (run_steps svc commands g' n1) as (outs & g2 & n2 & E & _).
      + exists (Player.with_current_room (Some next) p), next, r0. auto.
      + eauto.
    - intros direction' next' Hd'.
      apply (move_through_exit svc g' n1
               (Player.with_current_room (Some next) p) next r0 direction' next');
        auto. }
  destruct (rooms g !! next) as [r0|] eqn:Hr.
  - rewrite (handle_room_transition_existing svc _ n _ _ _ _ _ _ Hp Hc Hcur Hd Hr).
    eexists _, _, n, (marked r0). split; [reflexivity|].
    assert (Hr' : rooms (move_player next p g) !! next = Some r0) by exact Hr.
    split; [rewrite (arrive_rooms _ _ _ Hr'); apply lookup_insert_eq|].
    split; [unfold current_room_id; rewrite arrive_player; reflexivity|].
    intros Hg. apply (Hgoal g n r0 Hr eq_refl Hg).
  - rewrite (handle_room_transition_new svc _ n _ _ _ _ _ Hp Hc Hcur Hd Hr).
    set (g0 := with_current_path_depth (current_path_depth g + 1) g).
    set (r0 := generated svc n g0 (Some cur) next).
    assert (Hr' : rooms (update_room next r0 g0) !! next = Some r0)
      by apply lookup_insert_eq.
    eexists _, _, (S n), (marked r0). split; [reflexivity|].
    split; [rewrite (arrive_rooms next r0 (move_player next p (update_room next r0 g0)) Hr');
            apply lookup_insert_eq|].
    split; [unfold current_room_id; rewrite arrive_player; reflexivity|].
    intros Hg.
    destruct (Hgoal (update_room next r0 g0) (S n) r0 Hr' eq_refl Hg)
      as (H1 & H2 & H3 & H4 & H5 & H6).
    split; [exact H1|]. split; [exact H2|]. split; [exact H3|].
    split; [rewrite H4; apply generated_visited|]. split; [exact H5 | exact H6].
Qed.

Lemma goal_room_not_terminal_witness :
  exists out g1 r,
    handle_room_transition Sample.svc "n" Sample.st_hall
    = Some (out, mkState g1 3)
    /\ rooms g1 !! "start_n" = Some r
    /\ Room.is_goal r = true
    /\ out = goal_message r g1
    /\ exists out' g2 n2,
         handle_room_transition Sample.svc "s" (mkState g1 3)
         = Some (out', mkState g2 n2)
         /\ out' <> cannot_go
         /\ current_room_id g2 = Some "start_n_s".
Proof.
  destruct (goal_room_not_terminal Sample.svc (self Sample.st_hall) 2
              (Player.mk "Adventurer" [] (Some "start")) "start"
              (default (create_fallback_room "start")
                       (room_of_json "start" Sample.hall_json))
              "n" "start_n" eq_refl eq_refl eq_refl eq_refl)
    as (out & g1 & n1 & r & E & Hr & _ & Hgoal).
  vm_compute in E. injection E as Eout Eg En. subst out g1 n1.
  vm_compute in Hr. injection Hr as Er. subst r.
  destruct (Hgoal eq_refl) as (Hmsg & _ & _ & _ & _ & Hmove).
  destruct (Hmove "s" "start_n_s" eq_refl) as (out' & g2 & n2 & E2 & Hne & Hcur2 & _).
  eexists _, _, _. split; [reflexivity|]. split; [reflexivity|].
  split; [reflexivity|]. split; [exact Hmsg|].
  exists out', g2, n2. split; [exact E2|]. split; [exact Hne | exact Hcur2].
Defined.

(** ** Failures of the service *)

(** C9: a failed theme request leaves exactly the default theme and the
    default goal, whatever the [try] block assigned before it failed, and
    nothing else of the game changed; a failed hint request returns exactly
    the default hint and leaves the game as it was; neither raises, and
    each makes exactly one call. *)
Theorem service_failures_degrade svc g n :
  default_theme = "A mysterious adventure"
  /\ default_goal = "Discover the truth and find your way home"
  /\ default_hint = "You might want to examine your surroundings more carefully..."
  /\ (theme_fails (theme_reply svc n) ->
      exists g',
        generate_story_theme svc (mkState g n) = Some (tt, mkState g' (S n))
        /\ story_theme g' = "A mysterious adventure"
        /\ goal_description g' = "Discover the truth and find your way home"
        /\ rooms g' = rooms g /\ player g' = player g
        /\ current_path_depth g' = current_path_depth g
        /\ max_path_depth g' = max_path_depth g)
  /\ (forall p rid room,
        player g = Some p -> Player.current_room p = Some rid ->
        rooms g !! rid = Some room ->
        hint_reply svc n (hint_request room p) = None ->
        get_contextual_hint svc (mkState g n)
        = Some ("You might want to examine your surroundings more carefully...",
                mkState g (S n))
        /\ process_command svc "hint" (mkState g n)
           = Some ("You might want to examine your surroundings more carefully...",
                   mkState g (S n))).
Proof.
  split; [reflexivity|]. split; [reflexivity|]. split; [reflexivity|]. split.
  - intros Hfail. exists (themed svc n g).
    split; [apply generate_story_theme_eq|].
    unfold themed, story_theme_try. unfold theme_fails in Hfail.
    destruct (theme_reply svc n) as [sd|]; [|repeat split].
    destruct (sj_theme sd); [|repeat split].
    destruct (sj_goal sd); [|repeat split].
    destruct (sj_backstory sd); [|repeat split].
    destruct Hfail as [H|[H|H]]; discriminate H.
  - intros p rid room Hp Hc Hr Hfail.
    assert (E : get_contextual_hint svc (mkState g n)
                = Some (default_hint, mkState g (S n))).
    { rewrite (get_contextual_hint_eq svc _ n _ _ _ Hp Hc Hr), Hfail.
      reflexivity. }
    split; exact E.
Qed.

Lemma service_failures_degrade_witness :
  (exists g',
      generate_story_theme Sample.svc (mkState new_game 0)
      = Some (tt, mkState g' 1)
      /\ story_theme g' = "A mysterious adventure"
      /\ goal_description g' = "Discover the truth and find your way home"
      /\ rooms g' = rooms new_game /\ player g' = player new_game
      /\ current_path_depth g' = current_path_depth new_game
      /\ max_path_depth g' = max_path_depth new_game)
  /\ process_command Sample.svc "hint" Sample.st_hall
     = Some ("You might want to examine your surroundings more carefully...",
             mkState (self Sample.st_hall) 3).
Proof.
  split.
  - exact (proj1 (proj2 (proj2 (proj2
             (service_failures_degrade Sample.svc new_game 0)))) I).
  - exact (proj2 (proj2 (proj2 (proj2 (proj2
             (service_failures_degrade Sample.svc (self Sample.st_hall) 2))))
             (Player.mk "Adventurer" [] (Some "start")) "start"
             (default (create_fallback_room "start")
                      (room_of_json "start" Sample.hall_json))
             eq_refl eq_refl eq_refl eq_refl)).
Defined.

(** ** Fallback rooms are no goal rooms *)

Lemma chamber_look_not_goal_message r g0 :
  Room.name r = "Mysterious Chamber" ->
  Room.description r = "A mysterious chamber with shifting walls." ->
  Str.join Str.nl (description_parts r) <> goal_message r g0.
Proof.
  intros Hn Hd.
  assert (Hlook : exists t, Str.join Str.nl (description_parts r)
                            = String (ascii_of_nat 10) (String "M" t)).
  { unfold description_parts, base_parts. rewrite Hn. eexists. reflexivity. }
  assert (Hmsg : exists t, goal_message r g0
                           = String (ascii_of_nat 10) (String "A" t)).
  { unfold goal_message. rewrite Hd. eexists. reflexivity. }
  destruct Hlook as [t1 ->]. destruct Hmsg as [t2 ->]. discriminate.
Qed.

(** C10: the fallback room is created with [is_goal] and [visited] false.
    The move that realizes a room by the fallback returns the rendering of
    the room, which is not the completion message; and whatever commands
    follow, the room stays no goal room, so every later move into it
    returns its rendering too. *)
Theorem fallback_never_goal svc g n p rid cur direction next :
  player g = Some p -> Player.current_room p = Some rid ->
  rooms g !! rid = Some cur ->
  Dict.get direction (Room.exits cur) = Some next ->
  rooms g !! next = None ->
  generation_fails svc n
    (with_current_path_depth (current_path_depth g + 1) g) (Some cur) next ->
  Room.is_goal (create_fallback_room next) = false
  /\ Room.visited (create_fallback_room next) = false
  /\ exists g1,
       handle_room_transition svc direction (mkState g n)
       = Some (Str.join Str.nl (description_parts (create_fallback_room next)),
               mkState g1 (S n))
       /\ (forall g0, Str.join Str.nl (description_parts (create_fallback_room next))
                      <> goal_message (create_fallback_room next) g0)
       /\ forall commands,
            exists outs g2 n2 r2,
              run svc commands (mkState g1 (S n)) = Some (outs, mkState g2 n2)
              /\ rooms g2 !! next = Some r2
              /\ Room.is_goal r2 = false
              /\ forall p2 rid2 cur2 direction2,
                   player g2 = Some p2 ->
                   Player.current_room p2 = Some rid2 ->
                   rooms g2 !! rid2 = Some cur2 ->
                   Dict.get direction2 (Room.exits cur2) = Some next ->
                   exists g3,
                     handle_room_transition svc direction2 (mkState g2 n2)
                     = Some (Str.join Str.nl (description_parts r2), mkState g3 n2)
                     /\ forall g0, Str.join Str.nl (description_parts r2)
                                   <> goal_message r2 g0.
Proof.
  intros Hp Hc Hcur Hd Hnext Hfail.
  split; [reflexivity|]. split; [reflexivity|].
  rewrite (handle_room_transition_new svc _ n _ _ _ _ _ Hp Hc Hcur Hd Hnext).
  rewrite (generated_fallback _ _ _ _ _ Hfail).
  set (g0 := with_current_path_depth (current_path_depth g + 1) g).
  set (fb := create_fallback_room next).
  set (g' := move_player next p (update_room next fb g0)).
  assert (Hfb : rooms g' !! next = Some fb) by apply lookup_insert_eq.
  exists (snd (arrive next fb g')). split; [reflexivity|].
  split; [intros gx; apply chamber_look_not_goal_message; reflexivity|].
  intros commands.
  destruct (run_steps svc commands (snd (arrive next fb g')) (S n))
    as (outs & g2 & n2 & E & _ & Hev & _);
    [apply wf_arrive; apply lookup_insert_eq|].
  assert (Hm : rooms (snd (arrive next fb g')) !! next = Some (marked fb)).
  { rewrite (arrive_rooms _ _ _ Hfb). apply lookup_insert_eq. }
  destruct (ge_rooms _ _ Hev _ _ Hm) as (r2 & Hr2 & Hev2).
  assert (Hg2 : Room.is_goal r2 = false) by (rewrite (re_is_goal _ _ Hev2); reflexivity).
  exists outs, g2, n2, r2. split; [exact E|]. split; [exact Hr2|].
  split; [exact Hg2|].
  intros p2 rid2 cur2 direction2 Hp2 Hc2 Hcur2 Hd2.
  rewrite (handle_room_transition_existing svc _ n2 _ _ _ _ _ _ Hp2 Hc2 Hcur2 Hd2 Hr2).
  unfold arrive. rewrite Hg2. cbn [fst snd].
  eexists. split; [reflexivity|].
  intros gx. apply chamber_look_not_goal_message.
  - rewrite (re_name _ _ Hev2). reflexivity.
  - rewrite (re_description _ _ Hev2). reflexivity.
Qed.

Lemma fallback_never_goal_witness :
  Room.is_goal (create_fallback_room "start_n_s") = false
  /\ Room.visited (create_fallback_room "start_n_s") = false
  /\ exists g1,
       handle_room_transition Sample.svc "s" (mkState (self Sample.st_vault) 3)
       = Some (Str.join Str.nl (description_parts (create_fallback_room "start_n_s")),
               mkState g1 4).
Proof.
  destruct (fallback_never_goal Sample.svc (self Sample.st_vault) 3
              (Player.mk "Adventurer" [] (Some "start_n")) "start_n"
              (default (create_fallback_room "start_n")
                       (room_of_json "start_n" Sample.vault_json))
              "s" "start_n_s" eq_refl eq_refl eq_refl eq_refl eq_refl I)
    as (Hg & Hv & g1 & E & _).
  split; [exact Hg|]. split; [exact Hv|]. exists g1. exact E.
Defined.

(** * Further properties of the interpreter and of the world *)

(** ** Lines the interpreter does not act on *)

Lemma split_from_cur_nonempty s : forall cur,
  cur <> EmptyString -> Str.split_from cur s <> [].
Proof.
  induction s as [|c s IH]; intros cur Hcur; cbn [Str.split_from].
  - destruct cur; [congruence | discriminate].
  - destruct (Str.isspace c).
    + destruct cur; [congruence | discriminate].
    + apply IH. destruct cur; discriminate.
Qed.

Lemma split_nil_iff s : Str.split s = [] <-> all_space s = true.
Proof.
  unfold Str.split. induction s as [|c s IH]; cbn [Str.split_from all_space].
  - split; reflexivity.
  - destruct (Str.isspace c); cbn [andb Str.flush].
    + exact IH.
    + split; [|discriminate]. intros H.
      exfalso. revert H. apply split_from_cur_nonempty. discriminate.
Qed.

Lemma all_space_lower s : all_space (Str.lower s) = all_space s.
Proof.
  induction s as [|c s IH]; [reflexivity|].
  rewrite lower_cons. cbn [all_space]. rewrite isspace_lower_char, IH.
  reflexivity.
Qed.

(** X1: a line that is empty or holds white space only has no word and is
    answered by the request to enter a command, on any state, also before
    initialization; the state is unchanged. *)
Theorem blank_line_asks_again svc command st :
  all_space command = true ->
  Str.split (Str.lower command) = []
  /\ process_command svc command st = Some ("Please enter a command.", st).
Proof.
  intros Hblank.
  assert (Hs : Str.split (Str.lower command) = []).
  { apply split_nil_iff. rewrite all_space_lower. exact Hblank. }
  split; [exact Hs|]. unfold process_command. rewrite Hs. reflexivity.
Qed.

Lemma blank_line_asks_again_witness :
  process_command Sample.svc "   " (mkState new_game 0)
  = Some ("Please enter a command.", mkState new_game 0).
Proof.
  exact (proj2 (blank_line_asks_again Sample.svc "   " (mkState new_game 0) eq_refl)).
Defined.

Lemma not_known_verb verb :
  existsb (String.eqb verb) known_verbs = false ->
  String.eqb verb "look" = false
  /\ String.eqb verb "inventory" = false /\ String.eqb verb "i" = false
  /\ is_move_verb verb = false
  /\ String.eqb verb "take" = false /\ String.eqb verb "help" = false
  /\ String.eqb verb "hint" = false /\ String.eqb verb "examine" = false.
Proof.
  unfold known_verbs, is_move_verb, move_verbs. cbn [app existsb].
  rewrite !orb_false_iff. tauto.
Qed.

(** X2: an ASCII line whose first word is none of the verbs, or is [take]
    or [examine] with no second word, is answered that it is not
    understood; the state is unchanged and no room or player is needed. *)
Theorem unknown_command_not_understood svc command verb rest st :
  is_ascii command = true ->
  Str.split (Str.lower command) = verb :: rest ->
  existsb (String.eqb verb) known_verbs = false
  \/ ((verb = "take" \/ verb = "examine") /\ rest = []) ->
  process_command svc command st
  = Some ("I don't understand that command.", st).
Proof.
  intros _ Hs Hcase. unfold process_command. rewrite Hs.
  destruct Hcase as [Hunknown | [[-> | ->] ->]]; [|reflexivity|reflexivity].
  destruct (not_known_verb verb Hunknown)
    as (-> & -> & -> & -> & -> & -> & -> & ->).
  reflexivity.
Qed.

Lemma unknown_command_not_understood_witness :
  process_command Sample.svc "Dance wildly" Sample.st_hall
  = Some ("I don't understand that command.", Sample.st_hall)
  /\ process_command Sample.svc "take" Sample.st_hall
     = Some ("I don't understand that command.", Sample.st_hall).
Proof.
  split.
  - apply (unknown_command_not_understood Sample.svc "Dance wildly" "dance" ["wildly"]);
      [reflexivity | reflexivity | left; reflexivity].
  - apply (unknown_command_not_understood Sample.svc "take" "take" []);
      [reflexivity | reflexivity | right; split; [left; reflexivity | reflexivity]].
Defined.

Lemma lower_upper_char c : Str.lower_char (Str.upper_char c) = Str.lower_char c.
Proof. destruct c as [[] [] [] [] [] [] [] []]; reflexivity. Qed.

Lemma lower_upper s : Str.lower (Str.upper s) = Str.lower s.
Proof.
  induction s as [|c s IH]; [reflexivity|].
  change (Str.upper (String c s)) with (String (Str.upper_char c) (Str.upper s)).
  rewrite !lower_cons, lower_upper_char, IH. reflexivity.
Qed.

(** X3: the interpreter ignores the case of an ASCII line: typed in upper
    case or in lower case, the line gives the result of the line as typed,
    and two ASCII lines that differ by case only give the same result. *)
Theorem commands_ignore_case svc command st :
  is_ascii command = true ->
  process_command svc (Str.upper command) st = process_command svc command st
  /\ process_command svc (Str.lower command) st = process_command svc command st
  /\ forall command',
       is_ascii command' = true ->
       Str.lower command' = Str.lower command ->
       process_command svc command' st = process_command svc command st.
Proof.
  intros _. unfold process_command. rewrite lower_upper, lower_idem.
  split; [reflexivity|]. split; [reflexivity|].
  intros command' _ ->. reflexivity.
Qed.

Lemma commands_ignore_case_witness :
  process_command Sample.svc "TAKE KEY" Sample.st_hall
  = process_command Sample.svc "take key" Sample.st_hall
  /\ process_command Sample.svc "Take Key" Sample.st_hall
     = process_command Sample.svc "take key" Sample.st_hall.
Proof.
  split.
  - exact (proj1 (commands_ignore_case Sample.svc "take key" Sample.st_hall eq_refl)).
  - exact (proj2 (proj2 (commands_ignore_case Sample.svc "take key" Sample.st_hall
                           eq_refl)) "Take Key" eq_refl eq_refl).
Defined.

(** ** Items whose name holds a space *)








(** ** What a command does to the player and to the service *)

Lemma effect_same command g n : wf g -> effect command g n g n.
Proof.
  intros (p & rid & room & Hp & Hc & Hr). exists p, p.
  split; [exact Hp|]. split; [exact Hp|]. split; [reflexivity|].
  split; [exists []; symmetry; apply app_nil_r|].
  split; left; reflexivity.
Qed.

Lemma effect_player command g n g' :
  wf g -> player g' = player g -> effect command g n g' n.
Proof.
  intros (p & rid & room & Hp & Hc & Hr) Hpl. exists p, p.
  split; [exact Hp|]. split; [rewrite Hpl; exact Hp|]. split; [reflexivity|].
  split; [exists []; symmetry; apply app_nil_r|].
  split; left; reflexivity.
Qed.

Lemma cmd_examine_eq g n p rid room target :
  player g = Some p -> Player.current_room p = Some rid ->
  rooms g !! rid = Some room ->
  cmd_examine target (mkState g n) = Some (examined target p room, mkState g n).
Proof.
  intros Hp Hc Hr. unfold cmd_examine, examined. run_monad.
  rewrite (lookup_current_room_wf _ _ _ _ Hp Hc Hr), Hp. simpl.
  destruct (find _ (Player.inventory p)); [reflexivity|].
  destruct (find _ (Room.items room)); reflexivity.
Qed.

Lemma cmd_inventory_eq g n p :
  player g = Some p ->
  cmd_inventory (mkState g n)
  = Some (inventory_text (Player.inventory p), mkState g n).
Proof.
  intros Hp. unfold cmd_inventory, inventory_text. run_monad. rewrite Hp.
  destruct (Player.inventory p); reflexivity.
Qed.

Lemma handle_room_transition_effect svc command verb rest g n out g' n' :
  wf g ->
  Str.split (Str.lower command) = verb :: rest ->
  is_move_verb verb = true ->
  handle_room_transition svc verb (mkState g n) = Some (out, mkState g' n') ->
  effect command g n g' n'.
Proof.
  intros Hwf Hs Hverb Hres. pose proof Hwf as (p & rid & cur & Hp & Hc & Hcur).
  pose proof (lookup_current_room_wf _ _ _ _ Hp Hc Hcur) as Hlook.
  destruct (Dict.get verb (Room.exits cur)) as [next|] eqn:Hd.
  - assert (Hdest : destination g verb = Some next).
    { unfold destination. rewrite Hlook. exact Hd. }
    destruct (rooms g !! next) as [r|] eqn:Hr.
    + rewrite (handle_room_transition_existing svc _ n _ _ _ _ _ _ Hp Hc Hcur Hd Hr)
        in Hres.
      injection Hres as _ <- <-.
      exists p, (Player.with_current_room (Some next) p).
      split; [exact Hp|]. split; [rewrite arrive_player; reflexivity|].
      split; [reflexivity|]. split; [exists []; symmetry; apply app_nil_r|].
      split; [|left; reflexivity].
      right. exists verb, rest, next. auto.
    + rewrite (handle_room_transition_new svc _ n _ _ _ _ _ Hp Hc Hcur Hd Hr)
        in Hres.
      injection Hres as _ <- <-.
      exists p, (Player.with_current_room (Some next) p).
      split; [exact Hp|]. split; [rewrite arrive_player; reflexivity|].
      split; [reflexivity|]. split; [exists []; symmetry; apply app_nil_r|].
      split.
      * right. exists verb, rest, next. auto.
      * right. split; [reflexivity|]. exists verb, rest. split; [exact Hs|].
        right. split; [exact Hverb|]. exists next. auto.
  - rewrite (handle_room_transition_refused svc g n cur verb Hlook Hd) in Hres.
    injection Hres as _ <- <-. apply effect_same. exact Hwf.
Qed.

Lemma cmd_take_effect command g n item_name out g' n' :
  wf g ->
  cmd_take item_name (mkState g n) = Some (out, mkState g' n') ->
  effect command g n g' n'.
Proof.
  intros Hwf Hres. pose proof Hwf as (p & rid & room & Hp & Hc & Hr).
  destruct (find (name_is item_name) (Room.items room)) as [item|] eqn:Hf.
  - destruct (Item.can_take item) eqn:Ht.
    + destruct (list_remove_found _ _ _ Hf) as (pre & post & _ & _ & _ & Hrm).
      rewrite (cmd_take_taken _ n _ _ _ _ _ _ _ Hp Hc Hr Hf Ht Hrm) in Hres.
      injection Hres as _ <- <-.
      exists p, (Player.with_inventory (Player.inventory p ++ [item]) p).
      split; [exact Hp|]. split; [reflexivity|]. split; [reflexivity|].
      split; [exists [item]; reflexivity|]. split; left; reflexivity.
    + rewrite (cmd_take_refused _ n _ _ _ _ _ Hp Hc Hr Hf Ht) in Hres.
      injection Hres as _ <- <-. apply effect_same. exact Hwf.
  - rewrite (cmd_take_absent _ n _ _ _ _ Hp Hc Hr Hf) in Hres.
    injection Hres as _ <- <-. apply effect_same. exact Hwf.
Qed.

Lemma process_command_effect svc command g n out g' n' :
  wf g ->
  process_command svc command (mkState g n) = Some (out, mkState g' n') ->
  effect command g n g' n'.
Proof.
  intros Hwf Hres. pose proof Hwf as (p & rid & room & Hp & Hc & Hr).
  unfold process_command in Hres.
  destruct (Str.split (Str.lower command)) as [|verb rest] eqn:Hs.
  { injection Hres as _ <- <-. apply effect_same. exact Hwf. }
  destruct (String.eqb verb "look").
  { rewrite (cmd_look_eq _ _ _ _ _ Hp Hc Hr) in Hres. injection Hres as _ <- <-.
    apply effect_player; [exact Hwf | apply looked_player]. }
  destruct (String.eqb verb "inventory" || String.eqb verb "i").
  { rewrite (cmd_inventory_eq _ _ _ Hp) in Hres. injection Hres as _ <- <-.
    apply effect_same. exact Hwf. }
  destruct (is_move_verb verb) eqn:Hverb.
  { apply (handle_room_transition_effect svc command verb rest g n out g' n'
             Hwf Hs Hverb Hres). }
  destruct (String.eqb verb "take" && _).
  { apply (cmd_take_effect command g n _ out g' n' Hwf Hres). }
  destruct (String.eqb verb "help").
  { injection Hres as _ <- <-. apply effect_same. exact Hwf. }
  destruct (String.eqb verb "hint") eqn:Hhint.
  { rewrite (get_contextual_hint_eq svc _ n _ _ _ Hp Hc Hr) in Hres.
    injection Hres as _ <- <-. apply String.eqb_eq in Hhint.
    exists p, p. split; [exact Hp|]. split; [exact Hp|]. split; [reflexivity|].
    split; [exists []; symmetry; apply app_nil_r|].
    split; [left; reflexivity|]. right. split; [reflexivity|].
    exists verb, rest. split; [exact Hs|]. left. exact Hhint. }
  destruct (String.eqb verb "examine" && _).
  { rewrite (cmd_examine_eq _ _ _ _ _ _ Hp Hc Hr) in Hres.
    injection Hres as _ <- <-. apply effect_same. exact Hwf. }
  injection Hres as _ <- <-. apply effect_same. exact Hwf.
Qed.

Lemma process_command_next svc command g n :
  wf g ->
  exists out g' n',
    process_command svc command (mkState g n) = Some (out, mkState g' n')
    /\ wf g' /\ game_evolves g g' /\ effect command g n g' n'.
Proof.
  intros Hwf.
  destruct (process_command_step svc g n command Hwf)
    as (out & g' & n' & E & Hwf' & Hev & _).
  exists out, g', n'. split; [exact E|]. split; [exact Hwf'|].
  split; [exact Hev|]. apply (process_command_effect svc command g n out g' n' Hwf E).
Qed.

Lemma destination_exit g p rid cur verb :
  player g = Some p -> Player.current_room p = Some rid ->
  rooms g !! rid = Some cur ->
  destination g verb = Dict.get verb (Room.exits cur).
Proof.
  intros Hp Hc Hcur. unfold destination.
  rewrite (lookup_current_room_wf _ _ _ _ Hp Hc Hcur). reflexivity.
Qed.

(** X5: [initialize_game] makes exactly two calls to the service.  On an
    ASCII line a command makes one call or none, and it makes one exactly
    when the line has a first word that is [hint] or a movement verb that
    is an exit of the current room to a room not realized yet; a blank
    line makes none. *)
Theorem calls_per_command svc command g n :
  wf g ->
  is_ascii command = true ->
  (forall g0, exists g1,
      initialize_game svc (mkState g0 n) = Some (tt, mkState g1 (S (S n))))
  /\ exists out g' n',
       process_command svc command (mkState g n) = Some (out, mkState g' n')
       /\ (n' = n \/ n' = S n)
       /\ (n' = S n <->
           exists verb rest,
             Str.split (Str.lower command) = verb :: rest
             /\ (verb = "hint"
                 \/ (is_move_verb verb = true
                     /\ exists next, destination g verb = Some next
                                     /\ rooms g !! next = None))).
Proof.
  intros Hwf _. split.
  { intros g0. eexists. apply initialize_game_eq. }
  destruct (process_command_next svc command g n Hwf)
    as (out & g' & n' & E & _ & _ & Heff).
  exists out, g', n'. split; [exact E|].
  destruct Heff as (p & p' & Hp & _ & _ & _ & _ & Hcalls).
  split; [destruct Hcalls as [->|[-> _]]; auto|].
  split.
  - intros ->. destruct Hcalls as [Hn|[_ (verb & rest & Hs & Hwhy)]]; [lia|].
    exists verb, rest. split; [exact Hs|].
    destruct Hwhy as [Hhint | [Hverb Hnext]]; [left; exact Hhint|].
    right. split; [exact Hverb | exact Hnext].
  - intros (verb & rest & Hs & Hwhy).
    pose proof Hwf as (p0 & rid & cur & Hp0 & Hc & Hcur).
    destruct Hwhy as [-> | (Hverb & next & Hdest & Hnone)].
    + unfold process_command in E. rewrite Hs in E.
      change (get_contextual_hint svc (mkState g n) = Some (out, mkState g' n')) in E.
      rewrite (get_contextual_hint_eq svc _ n _ _ _ Hp0 Hc Hcur) in E.
      injection E as _ _ <-. reflexivity.
    + rewrite (process_command_move svc command verb rest _ Hs Hverb) in E.
      rewrite (destination_exit _ _ _ _ verb Hp0 Hc Hcur) in Hdest.
      unfold cmd_move in E.
      rewrite (handle_room_transition_new svc _ n _ _ _ _ _ Hp0 Hc Hcur Hdest Hnone) in E.
      injection E as _ _ <-. reflexivity.
Qed.

Lemma calls_per_command_witness :
  (exists out g' n',
      process_command Sample.svc "N" Sample.st_hall = Some (out, mkState g' n')
      /\ n' = 3%nat)
  /\ (exists out g' n',
        process_command Sample.svc "hint now" Sample.st_hall
        = Some (out, mkState g' n')
        /\ n' = 3%nat)
  /\ exists out g' n',
       process_command Sample.svc "look" Sample.st_hall = Some (out, mkState g' n')
       /\ n' = 2%nat.
Proof.
  split; [|split].
  - destruct (proj2 (calls_per_command Sample.svc "N" (self Sample.st_hall) 2
                       wf_sample_hall eq_refl))
      as (out & g' & n' & E & _ & Hiff).
    exists out, g', n'. split; [exact E|]. apply Hiff.
    exists "n", []. split; [reflexivity|]. right.
    split; [reflexivity|]. exists "start_n". split; reflexivity.
  - destruct (proj2 (calls_per_command Sample.svc "hint now" (self Sample.st_hall) 2
                       wf_sample_hall eq_refl))
      as (out & g' & n' & E & _ & Hiff).
    exists out, g', n'. split; [exact E|]. apply Hiff.
    exists "hint", ["now"]. split; [reflexivity|]. left. reflexivity.
  - destruct (proj2 (calls_per_command Sample.svc "look" (self Sample.st_hall) 2
                       wf_sample_hall eq_refl))
      as (out & g' & n' & E & Hn & Hiff).
    exists out, g', n'. split; [exact E|].
    destruct Hn as [Hn|Hn]; [exact Hn|]. exfalso.
    destruct (proj1 Hiff Hn) as (verb & rest & Hs & Hwhy).
    injection Hs as <- <-.
    destruct Hwhy as [Hh | [Hv _]]; discriminate.
Defined.

(** X6: no command takes anything from the player: after any sequence of
    commands the inventory is the inventory before, extended at its end,
    and the name of the player is the same. *)
Theorem inventory_only_grows svc commands : forall g n,
  wf g ->
  exists outs g' n',
    run svc commands (mkState g n) = Some (outs, mkState g' n')
    /\ (exists extra, inventory_of g' = inventory_of g ++ extra)
    /\ (Player.name <$> player g') = (Player.name <$> player g).
Proof.
  induction commands as [|c cs IH]; intros g n Hwf.
  - exists [], g, n. split; [reflexivity|].
    split; [exists []; symmetry; apply app_nil_r | reflexivity].
  - destruct (process_command_next svc c g n Hwf)
      as (out & g1 & n1 & E1 & Hwf1 & _ & Heff).
    destruct (IH g1 n1 Hwf1) as (outs & g2 & n2 & E2 & [extra2 Hinv2] & Hname2).
    exists (out :: outs), g2, n2. cbn [run]. unfold bind. rewrite E1, E2.
    split; [reflexivity|].
    destruct Heff as (p & p1 & Hp & Hp1 & Hname1 & [extra1 Hinv1] & _).
    split.
    + exists (extra1 ++ extra2). rewrite Hinv2. unfold inventory_of.
      rewrite Hp, Hp1, Hinv1. symmetry. apply app_assoc.
    + rewrite Hname2, Hp, Hp1. simpl. rewrite Hname1. reflexivity.
Qed.

Lemma inventory_only_grows_witness :
  exists outs g' n',
    run Sample.svc ["take key"; "n"; "look"] Sample.st_hall
    = Some (outs, mkState g' n')
    /\ (exists extra, inventory_of g' = [] ++ extra)
    /\ (Player.name <$> player g') = Some "Adventurer".
Proof.
  exact (inventory_only_grows Sample.svc ["take key"; "n"; "look"]
           (self Sample.st_hall) 2 wf_sample_hall).
Defined.

Lemma fallback_exits_no_move_verb room_id verb :
  is_move_verb verb = true ->
  Dict.get verb (Room.exits (create_fallback_room room_id)) = None.
Proof.
  intros Hverb.
  destruct (is_move_verb_cases verb Hverb)
    as [->|[->|[->|[->|[->|[->|[->| ->]]]]]]]; reflexivity.
Qed.

(** X7: the interpreter moves the player through exits named by a movement
    verb only.  In a room none of whose exits is named so, no sequence of
    commands moves the player: it returns, and the player is still there.
    The fallback room, whose exits are [forward] and [back], is such a
    room. *)
Theorem no_way_out_without_move_verb svc commands : forall g n p rid cur,
  player g = Some p -> Player.current_room p = Some rid ->
  rooms g !! rid = Some cur ->
  (forall verb, is_move_verb verb = true ->
                Dict.get verb (Room.exits cur) = None) ->
  (forall room_id verb, is_move_verb verb = true ->
     Dict.get verb (Room.exits (create_fallback_room room_id)) = None)
  /\ exists outs g' n',
       run svc commands (mkState g n) = Some (outs, mkState g' n')
       /\ current_room_id g' = Some rid.
Proof.
  induction commands as [|c cs IH]; intros g n p rid cur Hp Hc Hcur Hexits;
    (split; [exact fallback_exits_no_move_verb|]).
  - exists [], g, n. split; [reflexivity|].
    unfold current_room_id. rewrite Hp. exact Hc.
  - assert (Hwf : wf g) by (exists p, rid, cur; auto).
    destruct (process_command_next svc c g n Hwf)
      as (out & g1 & n1 & E1 & _ & Hev & Heff).
    destruct Heff as (p0 & p1 & Hp0 & Hp1 & _ & _ & Hroom & _).
    rewrite Hp in Hp0. injection Hp0 as <-.
    assert (Hc1 : Player.current_room p1 = Some rid).
    { destruct Hroom as [-> | (verb & rest & next & _ & Hverb & Hdest & _)];
        [exact Hc|].
      rewrite (destination_exit _ _ _ _ verb Hp Hc Hcur) in Hdest.
      rewrite (Hexits verb Hverb) in Hdest. discriminate Hdest. }
    destruct (ge_rooms _ _ Hev _ _ Hcur) as (cur1 & Hcur1 & Hev1).
    assert (Hexits1 : forall verb, is_move_verb verb = true ->
                        Dict.get verb (Room.exits cur1) = None).
    { intros verb Hverb. rewrite (re_exits _ _ Hev1). apply Hexits. exact Hverb. }
    destruct (IH g1 n1 p1 rid cur1 Hp1 Hc1 Hcur1 Hexits1)
      as (_ & outs & g2 & n2 & E2 & Hroom2).
    exists (out :: outs), g2, n2. cbn [run]. unfold bind. rewrite E1, E2.
    split; [reflexivity | exact Hroom2].
Qed.

Lemma no_way_out_without_move_verb_witness :
  exists outs g' n',
    run Sample.svc ["n"; "back"; "forward"; "look"; "west"]
        (mkState (self (Sample.after ["n"; "s"] Sample.st_hall)) 4)
    = Some (outs, mkState g' n')
    /\ current_room_id g' = Some "start_n_s".
Proof.
  exact (proj2 (no_way_out_without_move_verb Sample.svc
                  ["n"; "back"; "forward"; "look"; "west"]
                  (self (Sample.after ["n"; "s"] Sample.st_hall)) 4
                  (Player.mk "Adventurer" [] (Some "start_n_s")) "start_n_s"
                  (Room.with_visited true (create_fallback_room "start_n_s"))
                  eq_refl eq_refl eq_refl
                  (fallback_exits_no_move_verb "start_n_s"))).
Defined.

(** ** Sessions *)

Lemma themed_max_path_depth svc n g :
  max_path_depth (themed svc n g) = max_path_depth g.
Proof.
  unfold themed, story_theme_try.
  destruct (theme_reply svc n) as [sd|]; [|reflexivity].
  destruct (sj_theme sd); [|reflexivity].
  destruct (sj_goal sd); [|reflexivity].
  destruct (sj_backstory sd); reflexivity.
Qed.

Lemma reachable_step svc st :
  reachable svc st ->
  (forall command, exists out st',
      process_command svc command st = Some (out, st')
      /\ game_evolves (self st) (self st'))
  /\ (forall direction, exists out st',
        cmd_move svc direction st = Some (out, st')
        /\ game_evolves (self st) (self st')).
Proof.
  intros Hst. destruct (reachable_invariant svc st Hst) as (Hwf & _).
  destruct st as [g n]. simpl in Hwf. split.
  - intros command.
    destruct (process_command_step svc g n command Hwf)
      as (out & g' & n' & E & _ & Hev & _).
    exists out, (mkState g' n'). split; [exact E | exact Hev].
  - intros direction.
    destruct (handle_room_transition_step svc g n direction Hwf)
      as (out & g' & n' & E & _ & Hev & _).
    exists out, (mkState g' n'). split; [exact E | exact Hev].
Qed.

(** X8: for a service whose answers have the field types of its
    contract, as [room_json] and [item_json] record them, no sequence of
    commands raises in a session, that is after [initialize_game] on a
    fresh game: every command returns a text, the player stands in a
    realized room after each of them, and [start] stays realized. *)
Theorem session_never_raises svc commands : forall st,
  reachable svc st ->
  exists outs st',
    run svc commands st = Some (outs, st')
    /\ length outs = length commands
    /\ reachable svc st'
    /\ wf (self st')
    /\ is_Some (rooms (self st') !! "start").
Proof.
  induction commands as [|c cs IH]; intros st Hst.
  - exists [], st. split; [reflexivity|]. split; [reflexivity|].
    split; [exact Hst|].
    destruct (reachable_invariant svc st Hst) as (Hwf & Hstart & _). auto.
  - destruct (proj1 (reachable_step svc st Hst) c) as (out & st1 & E1 & _).
    assert (Hst1 : reachable svc st1) by (eapply reach_command; eassumption).
    destruct (IH st1 Hst1) as (outs & st2 & E2 & Hlen & Hst2 & Hwf2 & Hstart2).
    exists (out :: outs), st2. cbn [run]. unfold bind. rewrite E1, E2.
    split; [reflexivity|]. split; [simpl; congruence|]. auto.
Qed.

Lemma session_never_raises_witness :
  exists outs st',
    run Sample.svc ["look"; "take statue"; "n"; "s"; "back"; "hint"] Sample.st_hall
    = Some (outs, st')
    /\ length outs = 6%nat.
Proof.
  destruct (session_never_raises Sample.svc
              ["look"; "take statue"; "n"; "s"; "back"; "hint"]
              Sample.st_hall (reach_init Sample.svc 0))
    as (outs & st' & E & Hlen & _).
  exists outs, st'. split; [exact E | exact Hlen].
Defined.

Lemma reachable_max_path_depth svc st :
  reachable svc st -> max_path_depth (self st) = 10.
Proof.
  induction 1 as [n | st command out st' Hst IH Hstep | st direction out st' Hst IH Hstep].
  - unfold initialized. simpl. apply themed_max_path_depth.
  - destruct (proj1 (reachable_step svc st Hst) command) as (out1 & st1 & E & Hev).
    rewrite E in Hstep. injection Hstep as _ <-.
    rewrite (ge_max_path_depth _ _ Hev). exact IH.
  - destruct (proj2 (reachable_step svc st Hst) direction) as (out1 & st1 & E & Hev).
    rewrite E in Hstep. injection Hstep as _ <-.
    rewrite (ge_max_path_depth _ _ Hev). exact IH.
Qed.

(** X9: in a session the world only grows.  The depth bound is 10 and is
    never changed; and whatever commands follow a state, the
    theme and the goal are the same, every realized room is still realized
    with the same name, description, exits, hints, atmosphere, story
    context and goal flag, a visited room is still visited, a room holds no
    item it did not hold, and the depth has grown by the number of rooms
    realized. *)
Theorem world_only_grows svc commands st :
  reachable svc st ->
  max_path_depth (self st) = 10
  /\ exists outs st',
       run svc commands st = Some (outs, st')
       /\ game_evolves (self st) (self st')
       /\ max_path_depth (self st') = 10.
Proof.
  intros Hst. split; [apply (reachable_max_path_depth svc st Hst)|].
  destruct (reachable_invariant svc st Hst) as (Hwf & _).
  destruct st as [g n]. simpl in Hwf.
  destruct (run_steps svc commands g n Hwf) as (outs & g' & n' & E & _ & Hev & _).
  exists outs, (mkState g' n'). split; [exact E|]. split; [exact Hev|].
  simpl. rewrite (ge_max_path_depth _ _ Hev).
  apply (reachable_max_path_depth svc _ Hst).
Qed.

Lemma world_only_grows_witness :
  max_path_depth (self Sample.st_hall) = 10
  /\ exists outs st',
       run Sample.svc ["n"; "s"; "take key"] Sample.st_hall = Some (outs, st')
       /\ game_evolves (self Sample.st_hall) (self st')
       /\ max_path_depth (self st') = 10.
Proof.
  exact (world_only_grows Sample.svc ["n"; "s"; "take key"] Sample.st_hall
           (reach_init Sample.svc 0)).
Defined.

(** ** Generated rooms *)

Lemma dict_get_set_eq {V} k (v : V) d : Dict.get k (Dict.set k v d) = Some v.
Proof.
  induction d as [|[k' v'] d IH]; simpl.
  - rewrite String.eqb_refl. reflexivity.
  - destruct (String.eqb k k') eqn:E; simpl; rewrite E; [reflexivity | exact IH].
Qed.

Lemma dict_get_set_ne {V} k k' (v : V) d :
  k' <> k -> Dict.get k' (Dict.set k v d) = Dict.get k' d.
Proof.
  intros Hne. induction d as [|[k0 v0] d IH]; simpl.
  - apply String.eqb_neq in Hne. rewrite Hne. reflexivity.
  - destruct (String.eqb k k0) eqn:E; simpl.
    + apply String.eqb_eq in E. subst k0.
      apply String.eqb_neq in Hne. rewrite Hne. reflexivity.
    + destruct (String.eqb k' k0); [reflexivity | exact IH].
Qed.

Lemma exits_fold_get room_id direction (suggested : Dict.t string) :
  forall acc,
  Dict.get direction
    (fold_left (fun ex kv => Dict.set (fst kv) (exit_id room_id (fst kv)) ex)
               suggested acc)
  = if existsb (String.eqb direction) (Dict.keys suggested)
    then Some (exit_id room_id direction)
    else Dict.get direction acc.
Proof.
  induction suggested as [|[k desc] suggested IH]; intros acc; [reflexivity|].
  cbn [fold_left Dict.keys map existsb fst]. rewrite IH.
  fold (Dict.keys suggested).
  destruct (existsb (String.eqb direction) (Dict.keys suggested));
    [rewrite orb_true_r; reflexivity|].
  rewrite orb_false_r. destruct (String.eqb direction k) eqn:E.
  - apply String.eqb_eq in E. subst k. apply dict_get_set_eq.
  - apply dict_get_set_ne. apply String.eqb_neq. exact E.
Qed.

Lemma exit_id_longer room_id direction : exit_id room_id direction <> room_id.
Proof.
  intros E. apply (f_equal String.length) in E. unfold exit_id in E.
  rewrite !length_append_str in E. simpl in E. lia.
Qed.

Lemma room_of_json_exits room_id rd r :
  room_of_json room_id rd = Some r ->
  exists suggested,
    rj_suggested_exits rd = Some suggested
    /\ Room.exits r = exits_of_suggested room_id suggested
    /\ Room.visited r = false.
Proof.
  unfold room_of_json.
  destruct (rj_items rd) as [ijs|]; [|discriminate].
  destruct (items_of_json ijs); [|discriminate].
  destruct (rj_suggested_exits rd) as [suggested|]; [|discriminate].
  destruct (rj_name rd); [|discriminate].
  destruct (rj_description rd); [|discriminate].
  intros [= <-]. exists suggested. auto.
Qed.

(** X10: in a room built from an answer of the service, the exits are the
    directions the answer suggests and no other, each leading to the id of
    the room followed by an underscore and the direction; so no exit of
    such a room leads back to the room itself, and the room is created not
    visited. *)
Theorem generated_exits_extend_id room_id rd r :
  room_of_json room_id rd = Some r ->
  exists suggested,
    rj_suggested_exits rd = Some suggested
    /\ (forall direction,
          Dict.get direction (Room.exits r)
          = if existsb (String.eqb direction) (Dict.keys suggested)
            then Some (room_id +:+ "_" +:+ direction)
            else None)
    /\ (forall direction next,
          Dict.get direction (Room.exits r) = Some next ->
          next = room_id +:+ "_" +:+ direction /\ next <> room_id)
    /\ Room.visited r = false.
Proof.
  intros Hr. destruct (room_of_json_exits _ _ _ Hr) as (suggested & Hs & He & Hv).
  assert (Hget : forall direction,
            Dict.get direction (Room.exits r)
            = if existsb (String.eqb direction) (Dict.keys suggested)
              then Some (room_id +:+ "_" +:+ direction)
              else None).
  { intros direction. rewrite He. unfold exits_of_suggested.
    rewrite exits_fold_get. reflexivity. }
  exists suggested. split; [exact Hs|]. split; [exact Hget|].
  split; [|exact Hv].
  intros direction next Hnext. rewrite Hget in Hnext.
  destruct (existsb _ _); [|discriminate].
  injection Hnext as <-. split; [reflexivity|]. apply exit_id_longer.
Qed.

Lemma generated_exits_extend_id_witness :
  exists suggested,
    rj_suggested_exits Sample.hall_json = Some suggested
    /\ (forall direction,
          Dict.get direction
            (Room.exits (default (create_fallback_room "start")
                                 (room_of_json "start" Sample.hall_json)))
          = if existsb (String.eqb direction) (Dict.keys suggested)
            then Some ("start" +:+ "_" +:+ direction)
            else None)
    /\ (forall direction next,
          Dict.get direction
            (Room.exits (default (create_fallback_room "start")
                                 (room_of_json "start" Sample.hall_json)))
          = Some next ->
          next = "start" +:+ "_" +:+ direction /\ next <> "start")
    /\ Room.visited (default (create_fallback_room "start")
                             (room_of_json "start" Sample.hall_json)) = false.
Proof.
  exact (generated_exits_extend_id "start" Sample.hall_json
           (default (create_fallback_room "start")
                    (room_of_json "start" Sample.hall_json)) eq_refl).
Defined.

Lemma items_of_json_bad ijs ij :
  In ij ijs -> item_of_json ij = None -> items_of_json ijs = None.
Proof.
  induction ijs as [|ij0 ijs IH]; intros Hin Hbad; [destruct Hin|].
  simpl. destruct Hin as [-> | Hin].
  - rewrite Hbad. reflexivity.
  - destruct (item_of_json ij0); [|reflexivity].
    rewrite (IH Hin Hbad). reflexivity.
Qed.

(** X11: one item of an answer that has a key the [Item] class does not
    know, or lacks its name or its description, discards the whole answer:
    no room is built from it and [generate_room] returns the fallback
    room, with no item at all. *)
Theorem malformed_item_discards_room svc n g previous_room room_id rd ijs ij :
  room_reply svc n (room_request g previous_room) = Some rd ->
  rj_items rd = Some ijs ->
  In ij ijs ->
  ij_other_keys ij <> [] \/ ij_name ij = None \/ ij_description ij = None ->
  item_of_json ij = None
  /\ room_of_json room_id rd = None
  /\ generate_room svc room_id previous_room (mkState g n)
     = Some (create_fallback_room room_id, mkState g (S n))
  /\ Room.items (create_fallback_room room_id) = [].
Proof.
  intros Hreply Hitems Hin Hbad.
  assert (Hij : item_of_json ij = None).
  { unfold item_of_json. destruct (ij_other_keys ij) as [|k ks].
    - destruct Hbad as [H|[H|H]]; [congruence | rewrite H; reflexivity|].
      rewrite H. destruct (ij_name ij); reflexivity.
    - reflexivity. }
  assert (Hroom : room_of_json room_id rd = None).
  { unfold room_of_json. rewrite Hitems, (items_of_json_bad _ _ Hin Hij).
    reflexivity. }
  split; [exact Hij|]. split; [exact Hroom|]. split; [|reflexivity].
  rewrite generate_room_eq. unfold generated. rewrite Hreply, Hroom.
  reflexivity.
Qed.

Lemma malformed_item_discards_room_witness :
  generate_room
    (mkService (fun _ => None)
       (fun _ _ => Some (mkRoomJson (Some "Hall") (Some "A big hall.") None
                           (Some [mkItemJson (Some "Key") (Some "A key.") None [];
                                  mkItemJson (Some "Lamp") None None []])
                           None None (Some [("n", "a door")]) None))
       (fun _ _ => None))
    "start" None (mkState new_game 1)
  = Some (create_fallback_room "start", mkState new_game 2).
Proof.
  set (svc := mkService _ _ _).
  refine (proj1 (proj2 (proj2
            (malformed_item_discards_room svc 1 new_game None "start"
               (mkRoomJson (Some "Hall") (Some "A big hall.") None
                  (Some [mkItemJson (Some "Key") (Some "A key.") None [];
                         mkItemJson (Some "Lamp") None None []])
                  None None (Some [("n", "a door")]) None)
               _ (mkItemJson (Some "Lamp") None None [])
               eq_refl eq_refl _ _)))).
  - right. left. reflexivity.
  - right. right. reflexivity.
Defined.

(** ** Initialization *)

(** X12: whatever the service answers, [generate_story_theme] returns after
    one call, touches nothing but the theme and the goal, and leaves them
    either both at their defaults or both as the answer gives them, which
    then has a back story too: never one from the answer and one default. *)
Theorem theme_and_goal_together svc g n :
  exists g',
    generate_story_theme svc (mkState g n) = Some (tt, mkState g' (S n))
    /\ rooms g' = rooms g /\ player g' = player g
    /\ current_path_depth g' = current_path_depth g
    /\ max_path_depth g' = max_path_depth g
    /\ ((story_theme g' = default_theme /\ goal_description g' = default_goal)
        \/ exists sd th gl bs,
             theme_reply svc n = Some sd
             /\ sj_theme sd = Some th /\ sj_goal sd = Some gl
             /\ sj_backstory sd = Some bs
             /\ story_theme g' = th /\ goal_description g' = gl).
Proof.
  exists (themed svc n g). split; [apply generate_story_theme_eq|].
  unfold themed, story_theme_try.
  destruct (theme_reply svc n) as [sd|]; [|simpl; tauto].
  destruct (sj_theme sd) as [th|] eqn:Hth; [|simpl; tauto].
  destruct (sj_goal sd) as [gl|] eqn:Hgl; [|simpl; tauto].
  destruct (sj_backstory sd) as [bs|] eqn:Hbs; [|simpl; tauto].
  simpl. repeat (split; [reflexivity|]).
  right. exists sd, th, gl, bs. repeat split; assumption.
Qed.

(** X13: [initialize_game] on a fresh game returns after two calls and
    leaves one room, [start], not visited.  The room is the one built from
    the answer to the second call, whose request carries the theme and the
    goal just set, depth 0, bound 10 and the starting-point marker, or the
    fallback room when that answer is missing or builds no room.  The
    player [Adventurer] stands there with nothing; the depth is 0 and the
    bound 10. *)
Theorem initialize_game_result svc n :
  exists g start_room,
    initialize_game svc (mkState new_game n) = Some (tt, mkState g (S (S n)))
    /\ rooms g = {[ "start" := start_room ]}
    /\ Room.visited start_room = false
    /\ start_room
       = match room_reply svc (S n)
                 (mkRoomContext (story_theme g) (goal_description g) 0 10
                                "Starting point") with
         | Some rd =>
             match room_of_json "start" rd with
             | Some built => built
             | None => create_fallback_room "start"
             end
         | None => create_fallback_room "start"
         end
    /\ player g = Some (Player.mk "Adventurer" [] (Some "start"))
    /\ current_path_depth g = 0
    /\ max_path_depth g = 10.
Proof.
  exists (initialized svc n new_game).
  exists (generated svc (S n) (themed svc n new_game) None "start").
  split; [apply initialize_game_eq|].
  destruct (themed_depth svc n new_game) as [Hd Hrm].
  pose proof (themed_max_path_depth svc n new_game) as Hmax.
  split; [unfold initialized; simpl; rewrite Hrm; apply insert_empty|].
  split; [apply generated_visited|].
  split.
  - unfold generated, room_request. cbn [story_theme goal_description initialized
      with_player update_room with_rooms]. rewrite Hd, Hmax. cbn.
    destruct (room_reply svc (S n) _) as [rd|]; [|reflexivity].
    destruct (room_of_json "start" rd); reflexivity.
  - split; [reflexivity|]. split; [exact Hd | exact Hmax].
Qed.

(** X14: before [initialize_game] there is no player, and every command
    that reads the player or the room raises; the help text, a blank line
    and an unknown verb are answered all the same, with the state
    unchanged. *)
Theorem commands_need_initialization svc g n :
  player g = None ->
  cmd_look (mkState g n) = None
  /\ cmd_inventory (mkState g n) = None
  /\ (forall direction, handle_room_transition svc direction (mkState g n) = None)
  /\ (forall item_name, cmd_take item_name (mkState g n) = None)
  /\ get_contextual_hint svc (mkState g n) = None
  /\ (forall target, cmd_examine target (mkState g n) = None)
  /\ process_command svc "help" (mkState g n) = cmd_help (mkState g n)
  /\ (exists text, cmd_help (mkState g n) = Some (text, mkState g n))
  /\ forall command,
       process_command svc command (mkState g n) = None
       \/ exists text, process_command svc command (mkState g n)
                       = Some (text, mkState g n).
Proof.
  intros Hp.
  assert (Hlook : cmd_look (mkState g n) = None).
  { unfold cmd_look, current_room_id. run_monad. rewrite Hp. reflexivity. }
  assert (Hinv : cmd_inventory (mkState g n) = None).
  { unfold cmd_inventory. run_monad. rewrite Hp. reflexivity. }
  assert (Hmove : forall direction,
            handle_room_transition svc direction (mkState g n) = None).
  { intros direction. unfold handle_room_transition, lookup_current_room,
      current_room_id. run_monad. rewrite Hp. reflexivity. }
  assert (Htake : forall item_name, cmd_take item_name (mkState g n) = None).
  { intros item_name. unfold cmd_take, current_room_id. run_monad.
    rewrite Hp. reflexivity. }
  assert (Hhint : get_contextual_hint svc (mkState g n) = None).
  { unfold get_contextual_hint, lookup_current_room, current_room_id.
    run_monad. rewrite Hp. reflexivity. }
  assert (Hexam : forall target, cmd_examine target (mkState g n) = None).
  { intros target. unfold cmd_examine, lookup_current_room, current_room_id.
    run_monad. rewrite Hp. reflexivity. }
  split; [exact Hlook|]. split; [exact Hinv|]. split; [exact Hmove|].
  split; [exact Htake|]. split; [exact Hhint|]. split; [exact Hexam|].
  split; [reflexivity|]. split; [unfold cmd_help, ret; eexists; reflexivity|].
  intros command. unfold process_command.
  destruct (Str.split (Str.lower command)) as [|verb rest];
    [right; eexists; reflexivity|].
  destruct (String.eqb verb "look"); [left; exact Hlook|].
  destruct (String.eqb verb "inventory" || String.eqb verb "i");
    [left; exact Hinv|].
  destruct (is_move_verb verb); [left; apply Hmove|].
  destruct (String.eqb verb "take" && _); [left; apply Htake|].
  destruct (String.eqb verb "help");
    [right; unfold cmd_help, ret; eexists; reflexivity|].
  destruct (String.eqb verb "hint"); [left; exact Hhint|].
  destruct (String.eqb verb "examine" && _); [left; apply Hexam|].
  right. eexists. reflexivity.
Qed.

Lemma commands_need_initialization_witness :
  process_command Sample.svc "look" (mkState new_game 0) = None
  /\ process_command Sample.svc "hint" (mkState new_game 0) = None.
Proof.
  destruct (commands_need_initialization Sample.svc new_game 0 eq_refl)
    as (Hlook & _ & _ & _ & Hhint & _).
  split; [exact Hlook | exact Hhint].
Defined.

(** ** Taking, examining and listing *)

Lemma find_app {A} (f : A -> bool) (l1 l2 : list A) :
  find f (l1 ++ l2)
  = match find f l1 with
    | Some x => Some x
    | None => find f l2
    end.
Proof.
  induction l1 as [|x l1 IH]; [reflexivity|].
  simpl. destruct (f x); [reflexivity | exact IH].
Qed.

(** X15: taking a thing does not change what examining it shows: for a
    name in lower case, [cmd_examine] returns the same text before and
    after [cmd_take] of that name, whether the take succeeds, is refused
    or finds nothing; and it changes no state. *)
Theorem examine_unchanged_by_take g n p rid room item_name :
  player g = Some p -> Player.current_room p = Some rid ->
  rooms g !! rid = Some room ->
  Str.lower item_name = item_name ->
  exists out g' text,
    cmd_take item_name (mkState g n) = Some (out, mkState g' n)
    /\ cmd_examine item_name (mkState g n) = Some (text, mkState g n)
    /\ cmd_examine item_name (mkState g' n) = Some (text, mkState g' n).
Proof.
  intros Hp Hc Hr Hlow.
  pose proof (cmd_examine_eq g n p rid room item_name Hp Hc Hr) as Hex.
  destruct (find (name_is item_name) (Room.items room)) as [item|] eqn:Hf.
  - destruct (Item.can_take item) eqn:Ht.
    + destruct (list_remove_found _ _ _ Hf) as (pre & post & Hl & Hx & Hpre & Hrm).
      exists ("Taken: " +:+ Item.name item),
             (taken_game rid room p item (pre ++ post) g),
             (examined item_name p room).
      split; [apply (cmd_take_taken _ n _ _ _ _ _ _ _ Hp Hc Hr Hf Ht Hrm)|].
      split; [exact Hex|].
      rewrite (cmd_examine_eq (taken_game rid room p item (pre ++ post) g) n
                 (Player.with_inventory (Player.inventory p ++ [item]) p) rid
                 (Room.with_items (pre ++ post) room) item_name
                 eq_refl Hc (lookup_insert_eq _ _ _)).
      do 2 f_equal. unfold examined. rewrite Hlow. cbn [Player.inventory
        Player.with_inventory Room.items Room.with_items].
      rewrite find_app.
      destruct (find (name_is item_name) (Player.inventory p)); [reflexivity|].
      rewrite Hf. cbn [find]. rewrite Hx. reflexivity.
    + exists ("You can't take the " +:+ Item.name item +:+ "."), g,
             (examined item_name p room).
      split; [apply (cmd_take_refused _ n _ _ _ _ _ Hp Hc Hr Hf Ht)|].
      split; exact Hex.
  - exists ("I don't see a " +:+ item_name +:+ " here."), g,
           (examined item_name p room).
    split; [apply (cmd_take_absent _ n _ _ _ _ Hp Hc Hr Hf)|].
    split; exact Hex.
Qed.

Lemma examine_unchanged_by_take_witness :
  exists out g' text,
    cmd_take "key" Sample.st_hall = Some (out, mkState g' 2)
    /\ cmd_examine "key" Sample.st_hall = Some (text, Sample.st_hall)
    /\ cmd_examine "key" (mkState g' 2) = Some (text, mkState g' 2).
Proof.
  exact (examine_unchanged_by_take (self Sample.st_hall) 2
           (Player.mk "Adventurer" [] (Some "start")) "start"
           (default (create_fallback_room "start")
                    (room_of_json "start" Sample.hall_json))
           "key" eq_refl eq_refl eq_refl eq_refl).
Defined.

Lemma inventory_text_empty inv :
  inventory_text inv = "You are empty-handed." <-> inv = [].
Proof.
  destruct inv as [|item inv]; [split; reflexivity|].
  split; [|discriminate]. unfold inventory_text. intros H.
  assert (E : exists t, "You are carrying:" +:+ Str.nl
                +:+ Str.join Str.nl (map (fun i => "- " +:+ Item.name i) (item :: inv))
                = "You are c" +:+ t) by (eexists; reflexivity).
  destruct E as [t E]. rewrite E in H. discriminate H.
Qed.

(** X16: whenever there is a player, [cmd_inventory] returns, changes no
    state and reports empty hands exactly when the inventory is empty;
    after a take that succeeded it lists the inventory before followed by
    the item taken, one line each. *)
Theorem inventory_lists_taken_item g n p :
  player g = Some p ->
  (exists text, cmd_inventory (mkState g n) = Some (text, mkState g n)
                /\ (text = "You are empty-handed." <-> Player.inventory p = []))
  /\ forall rid room item_name item,
       Player.current_room p = Some rid ->
       rooms g !! rid = Some room ->
       find (name_is item_name) (Room.items room) = Some item ->
       Item.can_take item = true ->
       exists g',
         cmd_take item_name (mkState g n)
         = Some ("Taken: " +:+ Item.name item, mkState g' n)
         /\ cmd_inventory (mkState g' n)
            = Some ("You are carrying:" +:+ Str.nl
                    +:+ Str.join Str.nl
                          (map (fun i => "- " +:+ Item.name i)
                               (Player.inventory p ++ [item])),
                    mkState g' n).
Proof.
  intros Hp. split.
  - exists (inventory_text (Player.inventory p)).
    split; [apply (cmd_inventory_eq _ _ _ Hp) | apply inventory_text_empty].
  - intros rid room item_name item Hc Hr Hf Ht.
    destruct (list_remove_found _ _ _ Hf) as (pre & post & _ & _ & _ & Hrm).
    exists (taken_game rid room p item (pre ++ post) g).
    split; [apply (cmd_take_taken _ n _ _ _ _ _ _ _ Hp Hc Hr Hf Ht Hrm)|].
    rewrite (cmd_inventory_eq (taken_game rid room p item (pre ++ post) g) n
               (Player.with_inventory (Player.inventory p ++ [item]) p) eq_refl).
    cbn [Player.inventory Player.with_inventory]. unfold inventory_text.
    destruct (Player.inventory p ++ [item]) eqn:E; [|reflexivity].
    apply app_eq_nil in E. destruct E as [_ E]. discriminate E.
Qed.

Lemma inventory_lists_taken_item_witness :
  cmd_inventory (mkState (self (Sample.after ["n"; "s"] Sample.st_hall)) 4)
  = Some ("You are empty-handed.",
          mkState (self (Sample.after ["n"; "s"] Sample.st_hall)) 4)
  /\ exists g',
       cmd_take "key" Sample.st_hall = Some ("Taken: Key", mkState g' 2)
       /\ cmd_inventory (mkState g' 2)
          = Some ("You are carrying:" +:+ Str.nl +:+ "- Key", mkState g' 2).
Proof.
  split.
  - destruct (proj1 (inventory_lists_taken_item
                       (self (Sample.after ["n"; "s"] Sample.st_hall)) 4
                       (Player.mk "Adventurer" [] (Some "start_n_s")) eq_refl))
      as (text & E & Hiff).
    rewrite E. rewrite (proj2 Hiff eq_refl). reflexivity.
  - exact (proj2 (inventory_lists_taken_item (self Sample.st_hall) 2
                    (Player.mk "Adventurer" [] (Some "start")) eq_refl)
                 "start"
                 (default (create_fallback_room "start")
                          (room_of_json "start" Sample.hall_json))
                 "key" (Item.mk "Key" "A rusty key." true)
                 eq_refl eq_refl eq_refl eq_refl).
Defined.

(** ** Moves into rooms that are not realized *)

Lemma base_parts_marked r : base_parts (marked r) = base_parts r.
Proof. unfold marked. destruct (Room.is_goal r); reflexivity. Qed.



Lemma arrive_max_path_depth rid room g :
  max_path_depth (snd (arrive rid room g)) = max_path_depth g.
Proof.
  unfold arrive, looked.
  destruct (Room.is_goal room), (Room.visited room); reflexivity.
Qed.

(** X18: the request for a room made by a move carries the theme, the
    goal, the depth already counting the room, the bound, and the story
    context of the room the player leaves; the depth is not compared with
    the bound, and the move is not refused whatever they are.  The room
    stored is the one built from the answer to that request, or the
    fallback room. *)
Theorem move_request_carries_context svc g n p rid cur direction next :
  player g = Some p -> Player.current_room p = Some rid ->
  rooms g !! rid = Some cur ->
  Dict.get direction (Room.exits cur) = Some next ->
  rooms g !! next = None ->
  let request :=
    mkRoomContext (story_theme g) (goal_description g)
                  (current_path_depth g + 1) (max_path_depth g)
                  (Room.story_context cur) in
  let built :=
    match room_reply svc n request with
    | Some rd => default (create_fallback_room next) (room_of_json next rd)
    | None => create_fallback_room next
    end in
  exists out g1,
    handle_room_transition svc direction (mkState g n)
    = Some (out, mkState g1 (S n))
    /\ out <> cannot_go
    /\ rooms g1 !! next
       = Some (if Room.is_goal built then built
               else Room.with_visited true built)
    /\ current_path_depth g1 = current_path_depth g + 1
    /\ max_path_depth g1 = max_path_depth g.
Proof.
  intros Hp Hc Hcur Hd Hnext request built.
  rewrite (handle_room_transition_new svc _ n _ _ _ _ _ Hp Hc Hcur Hd Hnext).
  eexists _, _. split; [reflexivity|]. split; [apply arrive_not_refused|].
  split.
  - rewrite (arrive_rooms next built); [apply lookup_insert_eq|].
    apply lookup_insert_eq.
  - split; [rewrite arrive_depth; reflexivity|].
    rewrite arrive_max_path_depth. reflexivity.
Qed.

Lemma move_request_carries_context_witness :
  exists out g1,
    handle_room_transition Sample.svc "n" (mkState (self Sample.st_hall) 2)
    = Some (out, mkState g1 3)
    /\ out <> cannot_go
    /\ current_path_depth g1 = 0 + 1.
Proof.
  destruct (move_request_carries_context Sample.svc (self Sample.st_hall) 2
              (Player.mk "Adventurer" [] (Some "start")) "start"
              (default (create_fallback_room "start")
                       (room_of_json "start" Sample.hall_json))
              "n" "start_n" eq_refl eq_refl eq_refl eq_refl eq_refl)
    as (out & g1 & E & Hne & _ & Hd & _).
  exists out, g1. split; [exact E|]. split; [exact Hne | exact Hd].
Defined.
